(** * Video2Note: the renderer's stores, request layer and pages, and the
      pipeline contract they consume

    The development embeds the TypeScript sources of the desktop shell
    (zustand stores, the axios client, the Setup / Editor / Export pages and
    the Electron IPC handlers) as Rocq functions over explicit state, and the
    parts of the synthesis pipeline that live in the Python backend as
    definitions modelled from the written specification.

    Conventions
    - a JavaScript [number] is the exact rational ([Q]) it denotes.
      Comparisons of doubles are exact. The divisions of [formatTime] are
      rounded in the source: their floors are the exact ones, and whole
      numbers print with all their digits, for times up to
      [Js.MAX_SAFE_INTEGER]; the properties of [formatTime] are stated on
      that range only;
    - a JavaScript [string] is a [string] of bytes (UTF-8); only emptiness,
      concatenation and ASCII separators are inspected;
    - [T | null] and optional fields are [option T];
    - a promise is the value it settles with: [Resolved v] or [Rejected e]. *)

From Stdlib Require Import String Ascii List Bool Arith ZArith QArith Qround Qabs Lia.
From Stdlib Require Import Sorted Permutation.
From Stdlib Require Import DecimalString DecimalNat DecimalZ.
From Stdlib Require DecimalPos.
Import ListNotations.

Local Open Scope string_scope.
Local Open Scope list_scope.

(** ** JavaScript primitives used by the sources *)

Module Js.

(** Truthiness of a string: only the empty string is falsy. *)
Definition truthy (s : string) : bool :=
  match s with
  | EmptyString => false
  | String _ _ => true
  end.

(** [s || d] on strings. *)
Definition or_else (s d : string) : string :=
  if truthy s then s else d.

(** [o || d] where [o] may be [undefined]. *)
Definition opt_or_else (o : option string) (d : string) : string :=
  match o with
  | Some s => or_else s d
  | None => d
  end.

(** [s || undefined]. *)
Definition or_undefined (s : string) : option string :=
  if truthy s then Some s else None.

(** Truthiness of [string | null]. *)
Definition opt_truthy (o : option string) : bool :=
  match o with
  | Some s => truthy s
  | None => false
  end.

(** The settled value of a promise. *)
Inductive Settled (A E : Type) : Type :=
| Resolved (v : A)
| Rejected (e : E).
Arguments Resolved {A E} v.
Arguments Rejected {A E} e.

(** [Number.MAX_SAFE_INTEGER], 2^53 - 1: up to it every whole number is a
    double. *)
Definition MAX_SAFE_INTEGER : Z := 9007199254740991.

(** The decimal digits of a whole number. This is [n.toString()] for an
    integer-valued number of magnitude below 10^21; from there on JavaScript
    prints an exponent form, which is not modelled. *)
Definition toString (z : Z) : string :=
  NilZero.string_of_int (Z.to_int z).

(** [(n).toString()] for an array index. *)
Definition toString_nat (n : nat) : string :=
  NilZero.string_of_uint (Nat.to_uint n).

(** [s.padStart(2, '0')]. *)
Definition padStart2 (s : string) : string :=
  match String.length s with
  | O => "00"
  | S O => "0" ++ s
  | _ => s
  end.

(** [Math.floor]. *)
Definition floor (x : Q) : Z := Qfloor x.

(** Rounding towards zero, as the [%] operator does on the quotient. *)
Definition trunc (x : Q) : Z :=
  if Qle_bool 0 x then Qfloor x else Qceiling x.

(** [x % d]: the remainder has the sign of the dividend. *)
Definition rem (x d : Q) : Q :=
  (x - d * inject_Z (trunc (x / d)))%Q.

(** [s.replace(/c/g, '')] for a single character [c]. *)
Fixpoint remove_char (c : ascii) (s : string) : string :=
  match s with
  | EmptyString => EmptyString
  | String a r =>
      if Ascii.eqb a c then remove_char c r else String a (remove_char c r)
  end.

(** [lines.join('\n')]. *)
Definition join_lines (lines : list string) : string :=
  String.concat (String "010" EmptyString) lines.

End Js.

(** ** Core types (renderer/src/types/index.ts) *)

Record NoteNode : Type := mkNoteNode {
  id : string;
  timestamp : string;
  seconds : Q;
  title : string;
  content : string;
  imagePath : string;
  isEdited : bool
}.

(** [Partial<NoteNode>]: every field may be absent. *)
Record PartialNoteNode : Type := mkPartial {
  p_id : option string;
  p_timestamp : option string;
  p_seconds : option Q;
  p_title : option string;
  p_content : option string;
  p_imagePath : option string;
  p_isEdited : option bool
}.

Definition no_updates : PartialNoteNode :=
  mkPartial None None None None None None None.

Inductive OutputStyle : Type := professional | blog | tutorial.
Inductive LlmProvider : Type := openai | anthropic | local.
Inductive ScreenshotDensity : Type := smart | high | low.

Module AppSettings.
Record t : Type := mk {
  llmProvider : LlmProvider;
  apiKey : string;
  baseUrl : option string;
  model : string;
  screenshotDensity : ScreenshotDensity;
  outputStyle : OutputStyle
}.
End AppSettings.

Module ProjectState.
Record t : Type := mk {
  videoPath : option string;
  subtitlePath : option string;
  subtitleContent : option string;
  notes : list NoteNode;
  isProcessing : bool;
  processingProgress : Q;
  error : option string
}.
End ProjectState.

Module HealthResponse.
Record t : Type := mk {
  status : string;
  message : string;
  version : string
}.
End HealthResponse.

Module AnalyzeResponse.
Record t : Type := mk {
  success : bool;
  data : list NoteNode;
  error : option string
}.
End AnalyzeResponse.

(** ** Project store (renderer/src/stores/useProjectStore.ts) *)

Module ProjectStore.
Import ProjectState.

Definition initialState : ProjectState.t :=
  {| videoPath := None;
     subtitlePath := None;
     subtitleContent := None;
     notes := [];
     isProcessing := false;
     processingProgress := 0%Q;
     error := None |}.

Definition setVideoPath (path : option string) (st : t) : t :=
  mk path (subtitlePath st) (subtitleContent st) (notes st)
     (isProcessing st) (processingProgress st) (error st).

Definition setSubtitlePath (path : option string) (st : t) : t :=
  mk (videoPath st) path (subtitleContent st) (notes st)
     (isProcessing st) (processingProgress st) (error st).

Definition setSubtitleContent (c : option string) (st : t) : t :=
  mk (videoPath st) (subtitlePath st) c (notes st)
     (isProcessing st) (processingProgress st) (error st).

Definition setNotes (ns : list NoteNode) (st : t) : t :=
  mk (videoPath st) (subtitlePath st) (subtitleContent st) ns
     (isProcessing st) (processingProgress st) (error st).

(** [{ ...note, ...updates, isEdited: true }] *)
Definition spread (note : NoteNode) (updates : PartialNoteNode) : NoteNode :=
  {| id := match p_id updates with Some v => v | None => id note end;
     timestamp :=
       match p_timestamp updates with Some v => v | None => timestamp note end;
     seconds :=
       match p_seconds updates with Some v => v | None => seconds note end;
     title := match p_title updates with Some v => v | None => title note end;
     content :=
       match p_content updates with Some v => v | None => content note end;
     imagePath :=
       match p_imagePath updates with Some v => v | None => imagePath note end;
     isEdited := true |}.

Definition updateNote (i : string) (updates : PartialNoteNode) (st : t) : t :=
  setNotes
    (map (fun note => if String.eqb (id note) i then spread note updates else note)
         (notes st))
    st.

Definition deleteNote (i : string) (st : t) : t :=
  setNotes (filter (fun note => negb (String.eqb (id note) i)) (notes st)) st.

Definition setProcessing (b : bool) (st : t) : t :=
  mk (videoPath st) (subtitlePath st) (subtitleContent st) (notes st)
     b (processingProgress st) (error st).

Definition setProgress (p : Q) (st : t) : t :=
  mk (videoPath st) (subtitlePath st) (subtitleContent st) (notes st)
     (isProcessing st) p (error st).

Definition setError (e : option string) (st : t) : t :=
  mk (videoPath st) (subtitlePath st) (subtitleContent st) (notes st)
     (isProcessing st) (processingProgress st) e.

Definition resetProject (_ : t) : t := initialState.

End ProjectStore.

(** ** Settings store (renderer/src/stores/useSettingsStore.ts) *)

Module SettingsStore.
Import AppSettings.

Definition defaultSettings : AppSettings.t :=
  {| llmProvider := openai;
     apiKey := "";
     baseUrl := Some "";
     model := "gpt-4o-mini";
     screenshotDensity := smart;
     outputStyle := professional |}.

Definition setApiKey (k : string) (s : t) : t :=
  mk (llmProvider s) k (baseUrl s) (model s) (screenshotDensity s) (outputStyle s).

Definition setBaseUrl (u : string) (s : t) : t :=
  mk (llmProvider s) (apiKey s) (Some u) (model s) (screenshotDensity s)
     (outputStyle s).

Definition setModel (m : string) (s : t) : t :=
  mk (llmProvider s) (apiKey s) (baseUrl s) m (screenshotDensity s) (outputStyle s).

Definition setOutputStyle (o : OutputStyle) (s : t) : t :=
  mk (llmProvider s) (apiKey s) (baseUrl s) (model s) (screenshotDensity s) o.

End SettingsStore.

(** ** API client (renderer/src/api/client.ts) *)

Module ApiClient.
Import Js.

Definition API_BASE_URL : string := "http://127.0.0.1:8000".

(** [timeout: 300000], in milliseconds. *)
Definition timeout : N := 300000%N.

(** A thrown value, as far as the callers look at it: [err.message]. *)
Record JsError : Type := mkError { message : option string }.

(** What the backend does with one request: it answers (or fails) after
    some milliseconds, or never answers. *)
Inductive Backend (A : Type) : Type :=
| Replies (after_ms : N) (body : A)
| Fails (after_ms : N) (e : JsError)
| Silent.
Arguments Replies {A} after_ms body.
Arguments Fails {A} after_ms e.
Arguments Silent {A}.

(** The rejection axios produces when [timeout] elapses first. *)
Definition timeoutError : JsError :=
  mkError (Some "timeout of 300000ms exceeded").

(** A request through [apiClient]: the backend's answer if it comes within
    [timeout], the timeout rejection otherwise. *)
Definition request {A : Type} (b : Backend A) : Settled A JsError :=
  match b with
  | Replies t body => if (timeout <? t)%N then Rejected timeoutError else Resolved body
  | Fails t e => if (timeout <? t)%N then Rejected timeoutError else Rejected e
  | Silent => Rejected timeoutError
  end.

(** [checkHealth]: GET /health. *)
Definition checkHealth (backend : Backend HealthResponse.t)
  : Settled HealthResponse.t JsError :=
  request backend.

Module Params.
Record t : Type := mk {
  videoPath : string;
  subtitleText : string;
  apiKey : string;
  stylePrompt : string;
  baseUrl : option string;
  model : option string
}.
End Params.

(** The JSON body posted to /analyze_video. *)
Module Body.
Record t : Type := mk {
  video_path : string;
  subtitle_text : string;
  api_key : string;
  style : string;
  base_url : option string;
  model : string
}.
End Body.

Definition analyzeVideo_body (params : Params.t) : Body.t :=
  {| Body.video_path := Params.videoPath params;
     Body.subtitle_text := Params.subtitleText params;
     Body.api_key := Params.apiKey params;
     Body.style := Params.stylePrompt params;
     Body.base_url := Params.baseUrl params;
     Body.model := opt_or_else (Params.model params) "gpt-4o-mini" |}.

(** [analyzeVideo]: POST /analyze_video, returning [response.data]. *)
Definition analyzeVideo (backend : Body.t -> Backend AnalyzeResponse.t)
           (params : Params.t) : Settled AnalyzeResponse.t JsError :=
  request (backend (analyzeVideo_body params)).

End ApiClient.

(** ** Application state seen by the pages *)

Inductive Route : Type := SetupRoute | EditorRoute | ExportRoute.

Inductive HealthStatus : Type := idle | checking | ok | error.

Module SetupLocal.
Record t : Type := mk {
  settingsOpen : bool;
  healthStatus : HealthStatus;
  isDragging : bool;
  isProcessing : bool;
  errorMsg : string
}.

Definition initial : t := mk false idle false false "".
End SetupLocal.

Module App.
Record t : Type := mk {
  project : ProjectState.t;
  settings : AppSettings.t;
  setup : SetupLocal.t;
  route : Route
}.

Definition with_project (f : ProjectState.t -> ProjectState.t) (w : t) : t :=
  mk (f (project w)) (settings w) (setup w) (route w).

Definition with_setup (f : SetupLocal.t -> SetupLocal.t) (w : t) : t :=
  mk (project w) (settings w) (f (setup w)) (route w).

Definition route_eqb (a b : Route) : bool :=
  match a, b with
  | SetupRoute, SetupRoute => true
  | EditorRoute, EditorRoute => true
  | ExportRoute, ExportRoute => true
  | _, _ => false
  end.

(** [navigate(path)].  The [useState] cells of [SetupPage] live while the
    page is mounted: a change of route unmounts the page shown, its local
    state is dropped (a later setter call on it has no effect), and the page
    starts again from its initial values when it is next mounted.  [setup] is
    therefore the local state the page has while it is shown, and the state
    it will be mounted with otherwise.  Navigating to the route already shown
    re-renders the same page and changes nothing. *)
Definition navigate (r : Route) (w : t) : t :=
  if route_eqb r (route w) then w
  else mk (project w) (settings w) SetupLocal.initial r.
End App.

(** ** Setup page (renderer/src/pages/SetupPage.tsx) *)

Module SetupPage.
Import Js ApiClient.
Import SetupLocal.

Definition setSettingsOpen (b : bool) (s : SetupLocal.t) : SetupLocal.t :=
  mk b (healthStatus s) (isDragging s) (isProcessing s) (errorMsg s).

Definition setHealthStatus (h : HealthStatus) (s : SetupLocal.t) : SetupLocal.t :=
  mk (settingsOpen s) h (isDragging s) (isProcessing s) (errorMsg s).

Definition setIsProcessingLocal (b : bool) (s : SetupLocal.t) : SetupLocal.t :=
  mk (settingsOpen s) (healthStatus s) (isDragging s) b (errorMsg s).

Definition setErrorMsg (m : string) (s : SetupLocal.t) : SetupLocal.t :=
  mk (settingsOpen s) (healthStatus s) (isDragging s) (isProcessing s) m.

(** [handleCheckHealth], up to the [await]. *)
Definition handleCheckHealth_begin (w : App.t) : App.t :=
  App.with_setup (setHealthStatus checking) w.

(** [handleCheckHealth], from the settled [checkHealth()] on. *)
Definition handleCheckHealth_settle
           (r : Settled HealthResponse.t JsError) (w : App.t) : App.t :=
  match r with
  | Resolved _ => App.with_setup (setHealthStatus ok) w
  | Rejected _ => App.with_setup (setHealthStatus error) w
  end.

Definition handleCheckHealth (backend : Backend HealthResponse.t) (w : App.t)
  : App.t :=
  handleCheckHealth_settle (checkHealth backend) (handleCheckHealth_begin w).

Definition style_name (o : OutputStyle) : string :=
  match o with
  | professional => "professional"
  | blog => "blog"
  | tutorial => "tutorial"
  end.

Definition msg_missing_files : string := "请先上传视频和字幕文件".
Definition msg_missing_key : string := "请先在设置中配置 API Key".
Definition msg_failed : string := "处理失败".

(** The two guards at the head of [handleStart]. *)
Inductive StartGuard : Type :=
| MissingFiles
| MissingApiKey
| Ready (params : Params.t).

Definition handleStart_guard (w : App.t) : StartGuard :=
  match ProjectState.videoPath (App.project w),
        ProjectState.subtitleContent (App.project w) with
  | Some v, Some c =>
      if truthy v && truthy c then
        if truthy (AppSettings.apiKey (App.settings w)) then
          Ready {| Params.videoPath := v;
                   Params.subtitleText := c;
                   Params.apiKey := AppSettings.apiKey (App.settings w);
                   Params.stylePrompt :=
                     style_name (AppSettings.outputStyle (App.settings w));
                   Params.baseUrl :=
                     match AppSettings.baseUrl (App.settings w) with
                     | Some u => or_undefined u
                     | None => None
                     end;
                   Params.model := Some (AppSettings.model (App.settings w)) |}
        else MissingApiKey
      else MissingFiles
  | _, _ => MissingFiles
  end.

(** The [try] / [catch] / [finally] of [handleStart], applied to the
    settled request. After [navigate('/editor')] the setters of the
    [finally] block reach a page that is being unmounted: the store's flag
    is cleared, the page's own flag is already at its initial value. *)
Definition handleStart_settle
           (r : Settled AnalyzeResponse.t JsError) (w : App.t) : App.t :=
  let w1 :=
    match r with
    | Resolved result =>
        if AnalyzeResponse.success result then
          App.navigate EditorRoute
            (App.with_project
               (ProjectStore.setNotes (AnalyzeResponse.data result)) w)
        else
          App.with_setup
            (setErrorMsg (opt_or_else (AnalyzeResponse.error result) msg_failed))
            w
    | Rejected err =>
        App.with_setup (setErrorMsg (opt_or_else (message err) msg_failed)) w
    end in
  App.with_project (ProjectStore.setProcessing false)
    (App.with_setup (setIsProcessingLocal false) w1).

(** [handleStart] between its guards and the request: the processing
    flags are raised and the error message is cleared. *)
Definition handleStart_begin (w : App.t) : App.t :=
  App.with_setup (setErrorMsg "")
    (App.with_project (ProjectStore.setProcessing true)
       (App.with_setup (setIsProcessingLocal true) w)).

(** The request [handleStart] sends, if it gets past its guards. *)
Definition handleStart_request (w : App.t) : option Body.t :=
  match handleStart_guard w with
  | Ready params => Some (analyzeVideo_body params)
  | _ => None
  end.

Definition handleStart (backend : Body.t -> Backend AnalyzeResponse.t)
           (w : App.t) : App.t :=
  match handleStart_guard w with
  | MissingFiles => App.with_setup (setErrorMsg msg_missing_files) w
  | MissingApiKey =>
      App.with_setup (setSettingsOpen true)
        (App.with_setup (setErrorMsg msg_missing_key) w)
  | Ready params =>
      handleStart_settle (analyzeVideo backend params) (handleStart_begin w)
  end.

End SetupPage.

(** ** Editor page (renderer/src/pages/EditorPage.tsx) *)

Module EditorPage.
Import Js.

Record Local : Type := mkLocal {
  isPlaying : bool;
  currentTime : Q;
  activeNoteId : option string
}.

(** The predicate of [notes.find] in [handleTimeUpdate]:
    [note.seconds <= t && (!nextNote || nextNote.seconds > t)]. *)
Definition covers (t : Q) (note : NoteNode) (nextNote : option NoteNode) : bool :=
  Qle_bool (seconds note) t &&
  match nextNote with
  | None => true
  | Some next => negb (Qle_bool (seconds next) t)
  end.

(** [notes.find((note, index) => ...)], with [notes[index + 1]] the head of
    the remaining list. *)
Fixpoint find_current (t : Q) (ns : list NoteNode) : option NoteNode :=
  match ns with
  | [] => None
  | note :: rest =>
      if covers t note (hd_error rest) then Some note else find_current t rest
  end.

Definition handleTimeUpdate (t : Q) (ns : list NoteNode) (l : Local) : Local :=
  let l1 := mkLocal (isPlaying l) t (activeNoteId l) in
  match find_current t ns with
  | Some currentNote => mkLocal (isPlaying l1) (currentTime l1) (Some (id currentNote))
  | None => l1
  end.

(** [formatTime], on the exact value of its argument. The source divides
    doubles: [seconds / 3600] and [(seconds % 3600) / 60] are rounded to the
    nearest double before [Math.floor], while [%] is exact. For
    [0 <= seconds <= Js.MAX_SAFE_INTEGER] the rounded quotients have the
    floors of the exact ones and the three parts are far below 10^21, so the
    function below is the source's; beyond that range the source may round
    an hour up or print an exponent, and the definition does not apply. *)
Definition formatTime (secs : Q) : string :=
  let h := floor (secs / 3600) in
  let m := floor (rem secs 3600 / 60) in
  let s := floor (rem secs 60) in
  if (0 <? h)%Z then
    toString h ++ ":" ++ padStart2 (toString m) ++ ":" ++ padStart2 (toString s)
  else
    toString m ++ ":" ++ padStart2 (toString s).

(** What the page can do to the shared state: the video's [timeupdate],
    [play] and [pause] events, and the three callbacks of a [NoteCard]. *)
Inductive Action : Type :=
| TimeUpdate (t : Q)
| Play
| Pause
| EditTitle (note_id : string) (value : string)
| EditContent (note_id : string) (value : string)
| Delete (note_id : string).

Record State : Type := mkState {
  store : ProjectState.t;
  local : Local
}.

Definition title_update (v : string) : PartialNoteNode :=
  mkPartial None None None (Some v) None None None.

Definition content_update (v : string) : PartialNoteNode :=
  mkPartial None None None None (Some v) None None.

Definition step (a : Action) (s : State) : State :=
  match a with
  | TimeUpdate t =>
      mkState (store s)
              (handleTimeUpdate t (ProjectState.notes (store s)) (local s))
  | Play =>
      mkState (store s)
              (mkLocal true (currentTime (local s)) (activeNoteId (local s)))
  | Pause =>
      mkState (store s)
              (mkLocal false (currentTime (local s)) (activeNoteId (local s)))
  | EditTitle i v =>
      mkState (ProjectStore.updateNote i (title_update v) (store s)) (local s)
  | EditContent i v =>
      mkState (ProjectStore.updateNote i (content_update v) (store s)) (local s)
  | Delete i => mkState (ProjectStore.deleteNote i (store s)) (local s)
  end.

Definition run (actions : list Action) (s : State) : State :=
  fold_left (fun acc a => step a acc) actions s.

End EditorPage.

(** ** Export page (renderer/src/pages/ExportPage.tsx) *)

Module ExportPage.
Import Js.

Inductive ImageMode : Type := path | base64.

Definition is_path_separator (c : ascii) : bool :=
  Ascii.eqb c "/" || Ascii.eqb c "\".

(** [s.split(/[/\\]/)], with [cur] the segment being read. *)
Fixpoint split_path (s : string) (cur : string) : list string :=
  match s with
  | EmptyString => [cur]
  | String c r =>
      if is_path_separator c then cur :: split_path r ""
      else split_path r (cur ++ String c "")
  end.

Fixpoint no_dot (s : string) : bool :=
  match s with
  | EmptyString => true
  | String c r => negb (Ascii.eqb c ".") && no_dot r
  end.

(** [s.replace(/\.[^.]+$/, '')]: cut at the last dot when something
    follows it. *)
Fixpoint strip_extension (s : string) : string :=
  match s with
  | EmptyString => EmptyString
  | String c r =>
      if Ascii.eqb c "." && truthy r && no_dot r then EmptyString
      else String c (strip_extension r)
  end.

Definition videoName (videoPath : option string) : string :=
  match videoPath with
  | Some p => or_else (strip_extension (last (split_path p "") "")) "Video Notes"
  | None => "Video Notes"
  end.

Definition push (lines : list string) (line : string) : list string :=
  lines ++ [line].

(** [notes.forEach((note, index) => ...)] over an accumulator. *)
Fixpoint forEach {Acc : Type} (f : Acc -> NoteNode -> nat -> Acc)
         (ns : list NoteNode) (index : nat) (acc : Acc) : Acc :=
  match ns with
  | [] => acc
  | note :: rest => forEach f rest (S index) (f acc note index)
  end.

Definition anchor (note : NoteNode) : string :=
  remove_char ":" (timestamp note).

Definition toc_entry (lines : list string) (note : NoteNode) (index : nat)
  : list string :=
  push lines
       (toString_nat (index + 1) ++ ". [" ++ title note ++ "](#" ++ anchor note ++ ")").

Definition image_line (note : NoteNode) : string :=
  "![" ++ title note ++ "](" ++ imagePath note ++ ")".

Definition note_section (imageMode : ImageMode) (lines : list string)
           (note : NoteNode) (_ : nat) : list string :=
  let lines := push lines ("## " ++ title note ++ " {#" ++ anchor note ++ "}") in
  let lines := push lines "" in
  let lines := push lines ("**时间戳**: `" ++ timestamp note ++ "`") in
  let lines := push lines "" in
  let lines :=
    if truthy (imagePath note) then
      let lines :=
        match imageMode with
        | path => push lines ("![" ++ title note ++ "](" ++ imagePath note ++ ")")
        | base64 => push lines ("![" ++ title note ++ "](" ++ imagePath note ++ ")")
        end in
      push lines ""
    else lines in
  let lines := push lines (content note) in
  let lines := push lines "" in
  let lines := push lines "---" in
  push lines "".

Definition generateMarkdown_lines (imageMode : ImageMode)
           (videoPath : option string) (notes : list NoteNode) : list string :=
  let lines := [] in
  let lines := push lines ("# " ++ videoName videoPath) in
  let lines := push lines "" in
  let lines := push lines "> 由 Video2Note 自动生成" in
  let lines := push lines "" in
  let lines := push lines "---" in
  let lines := push lines "" in
  let lines := push lines "## 目录" in
  let lines := push lines "" in
  let lines := forEach toc_entry notes 0 lines in
  let lines := push lines "" in
  let lines := push lines "---" in
  let lines := push lines "" in
  forEach (note_section imageMode) notes 0 lines.

Definition generateMarkdown (imageMode : ImageMode) (videoPath : option string)
           (notes : list NoteNode) : string :=
  join_lines (generateMarkdown_lines imageMode videoPath notes).

End ExportPage.

(** ** Main process IPC handlers (main/index.ts) *)

Module MainProcess.
Import Js.

(** The value [dialog.showOpenDialog] resolves with. *)
Record OpenDialogReturnValue : Type := mkDialog {
  canceled : bool;
  filePaths : list string
}.

(** The file system as [fs.readFileSync(path, 'utf-8')] sees it: the
    decoded content, or [None] where the call throws. *)
Definition FileSystem : Type := string -> option string.

(** What [readFileSync] throws: an I/O error on a path, or a type error
    when the path argument is [undefined]. *)
Inductive FsError : Type :=
| ReadFailed (file : string)
| InvalidPath.

(** [result.filePaths[0]]. *)
Definition first_path (result : OpenDialogReturnValue) : option string :=
  hd_error (filePaths result).

(** [fs.readFileSync(file, 'utf-8')]. *)
Definition readFileSync (fs : FileSystem) (file : string)
  : Settled string FsError :=
  match fs file with
  | Some content => Resolved content
  | None => Rejected (ReadFailed file)
  end.

(** The handler of 'select-video-file'; [None] is [null]. *)
Definition select_video_file (result : OpenDialogReturnValue) : option string :=
  if canceled result || (length (filePaths result) =? 0)%nat then None
  else first_path result.

(** The handler of 'select-subtitle-file'; a rejection is the exception
    escaping the handler. *)
Definition select_subtitle_file (fs : FileSystem) (result : OpenDialogReturnValue)
  : Settled (option (string * string)) FsError :=
  if canceled result || (length (filePaths result) =? 0)%nat then Resolved None
  else
    match first_path result with
    | Some filePath =>
        match readFileSync fs filePath with
        | Resolved content => Resolved (Some (filePath, content))
        | Rejected e => Rejected e
        end
    | None => Rejected InvalidPath
    end.

End MainProcess.

(** ** The synthesis pipeline (python_backend, not part of the renderer) *)

Module Pipeline.
Import Js.

(** Modelled from the spec: the [Moment] record of the data model,
    {seconds, title, content}, produced by the Key-Moment Extractor of the
    Python backend. *)
Record Moment : Type := mkMoment {
  m_seconds : Q;
  m_title : string;
  m_content : string
}.

(** Modelled from the spec: the reasons of a total decode failure named in
    the Frame Extraction Engine contract (corrupt file, out-of-range seek,
    codec error). *)
Inductive FailureReason : Type := CorruptFile | SeekOutOfRange | CodecError.

(** Modelled from the spec: [FrameResult], tagged as Success{path,
    sharpness, offset_seconds} or Failure{reason}. *)
Inductive FrameResult : Type :=
| Success (path : string) (sharpness : Q) (offset_seconds : Q)
| Failure (reason : FailureReason).

(** Modelled from the spec: sorting ascending by seconds, for the merge of
    the Key-Moment Extractor and the re-sort of the Note Assembler. The
    insertion keeps the input order of equal keys, so that the first
    chunk's reading comes first. *)
Fixpoint insert_by {A : Type} (key : A -> Q) (x : A) (l : list A) : list A :=
  match l with
  | [] => [x]
  | y :: r =>
      if Qle_bool (key x) (key y) then x :: l else y :: insert_by key x r
  end.

(** Modelled from the spec: see [insert_by]. *)
Definition sort_by {A : Type} (key : A -> Q) (l : list A) : list A :=
  fold_right (insert_by key) [] l.

(** Modelled from the spec: two moments are within the minimum separation
    threshold when their distance in seconds is below it. *)
Definition closer_than (threshold : Q) (a b : Moment) : bool :=
  negb (Qle_bool threshold (Qabs (m_seconds b - m_seconds a))).

(** Modelled from the spec: a candidate is a duplicate when some earlier
    candidate lies within the threshold of it. *)
Definition duplicate_of (threshold : Q) (earlier : list Moment) (m : Moment)
  : bool :=
  existsb (fun e => closer_than threshold e m) earlier.

(** Modelled from the spec: the deduplication of the Key-Moment Extractor,
    any two moments within the threshold are duplicates and the later one
    is dropped; [earlier] holds the candidates already read. *)
Fixpoint dedup (threshold : Q) (earlier : list Moment) (ms : list Moment)
  : list Moment :=
  match ms with
  | [] => []
  | m :: rest =>
      if duplicate_of threshold earlier m
      then dedup threshold (earlier ++ [m]) rest
      else m :: dedup threshold (earlier ++ [m]) rest
  end.

(** Modelled from the spec: after all chunks resolve, their moments are
    merged, sorted ascending by seconds and deduplicated. *)
Definition merge_moments (threshold : Q) (chunks : list (list Moment))
  : list Moment :=
  dedup threshold [] (sort_by m_seconds (concat chunks)).

(** Modelled from the spec: the Note Assembler's timestamp, floor-division
    of the whole seconds into hours, minutes and seconds, minutes and
    seconds zero-padded, the hours part omitted when it is zero. *)
Definition format_timestamp (secs : Q) : string :=
  let total := Qfloor secs in
  let h := (total / 3600)%Z in
  let m := ((total mod 3600) / 60)%Z in
  let s := (total mod 60)%Z in
  if (h =? 0)%Z then
    toString m ++ ":" ++ padStart2 (toString s)
  else
    toString h ++ ":" ++ padStart2 (toString m) ++ ":" ++ padStart2 (toString s).

(** Modelled from the spec: a stable id derived from the position of the
    moment and its seconds; the spec fixes no format, this one writes the
    position, a dash and the whole seconds. *)
Definition note_id (index : nat) (secs : Q) : string :=
  toString_nat index ++ "-" ++ toString (Qfloor secs).

(** Modelled from the spec: the Note Assembler's record for one moment and
    its frame result; image_path is empty when extraction failed, edited
    is false on creation. *)
Definition assemble_note (index : nat) (mf : Moment * FrameResult) : NoteNode :=
  {| id := note_id index (m_seconds (fst mf));
     timestamp := format_timestamp (m_seconds (fst mf));
     seconds := m_seconds (fst mf);
     title := m_title (fst mf);
     content := m_content (fst mf);
     imagePath :=
       match snd mf with
       | Success p _ _ => p
       | Failure _ => ""
       end;
     isEdited := false |}.

(** Modelled from the spec: moments paired with their frame results by
    moment index. *)
Fixpoint assemble_from (index : nat) (pairs : list (Moment * FrameResult))
  : list NoteNode :=
  match pairs with
  | [] => []
  | mf :: rest => assemble_note index mf :: assemble_from (S index) rest
  end.

(** Modelled from the spec: the Note Assembler, which always re-sorts by
    seconds before returning. *)
Definition assemble (pairs : list (Moment * FrameResult)) : list NoteNode :=
  sort_by seconds (assemble_from 0 pairs).

End Pipeline.

(** ** The pipeline orchestrator (Python backend), as specified *)

Module Orchestrator.
Import Pipeline.

(** Modelled from the spec: the fatal errors of the taxonomy, the only ones
    that propagate to the caller of [synthesize]; every other failure is
    absorbed into a partial result. *)
Inductive PipelineError : Type := UnsupportedFormat | NoUsableContent.

(** Modelled from the spec: the per-moment work of one run, an accepted
    moment, its frame result, and the wall-clock time, in milliseconds from
    the start of the run, at which both are complete, so that the note can be
    assembled. *)
Record MomentWork : Type := mkWork {
  moment : Moment;
  frame : FrameResult;
  completed_at : N
}.

(** Modelled from the spec: once the overall timeout is exceeded the
    outstanding work is cancelled; already-completed moment results are
    retained. *)
Definition retained (timeout : N) (run : list MomentWork) : list MomentWork :=
  filter (fun w => (completed_at w <=? timeout)%N) run.

(** Modelled from the spec: the run exceeds its overall timeout when some of
    its work is still outstanding at that time. *)
Definition timed_out (timeout : N) (run : list MomentWork) : bool :=
  existsb (fun w => (timeout <? completed_at w)%N) run.

(** Modelled from the spec: [synthesize(...) -> NoteNode[] | PipelineError]
    under an overall timeout. The notes are assembled from the retained
    work; a non-empty result, partial or not, is returned as the array, and
    only a run that produced no note at all fails, with [NoUsableContent]. *)
Definition synthesize (timeout : N) (run : list MomentWork)
  : list NoteNode + PipelineError :=
  match assemble (map (fun w => (moment w, frame w)) (retained timeout run)) with
  | [] => inr NoUsableContent
  | note :: more => inl (note :: more)
  end.

End Orchestrator.

(** ** Setup page: choosing files (renderer/src/pages/SetupPage.tsx) *)

Module SetupFiles.
Import Js.

(** A dropped [File]: its name, the [path] Electron adds to it, and the text
    [FileReader.readAsText] will deliver. *)
Record File : Type := mkFile {
  name : string;
  path : option string;
  text : string
}.

(** [s.split('.')], with [cur] the piece being read. *)
Fixpoint split_dot (s : string) (cur : string) : list string :=
  match s with
  | EmptyString => [cur]
  | String c r =>
      if Ascii.eqb c "." then cur :: split_dot r ""
      else split_dot r (cur ++ String c "")
  end.

Inductive Kind : Type := Video | Subtitle | Other.

Definition is_video_ext (ext : string) : bool :=
  String.eqb ext "mp4" || String.eqb ext "mkv" || String.eqb ext "avi" ||
  String.eqb ext "mov" || String.eqb ext "webm".

Definition is_subtitle_ext (ext : string) : bool :=
  String.eqb ext "srt" || String.eqb ext "vtt" || String.eqb ext "txt".

(** [(file as any).path || file.name]. *)
Definition file_path (f : File) : string :=
  opt_or_else (path f) (name f).

(** [reader.onload]: the text read becomes the subtitle content. *)
Definition onload (f : File) (st : ProjectState.t) : ProjectState.t :=
  ProjectStore.setSubtitleContent (Some (text f)) st.

Section WithLowerCase.

(** [String.prototype.toLowerCase], taken as given: the handlers only
    compare its result with ASCII words. *)
Variable toLowerCase : string -> string.

(** [file.name.split('.').pop()?.toLowerCase()]. *)
Definition extension (f : File) : string :=
  toLowerCase (last (split_dot (name f) "") "").

Definition kind_of (f : File) : Kind :=
  if is_video_ext (extension f) then Video
  else if is_subtitle_ext (extension f) then Subtitle
  else Other.

(** The body of the [forEach] in [handleFiles]: the store after the
    synchronous part, and the files handed to a [FileReader], in order. *)
Definition handleFile (acc : ProjectState.t * list File) (f : File)
  : ProjectState.t * list File :=
  match kind_of f with
  | Video => (ProjectStore.setVideoPath (Some (file_path f)) (fst acc), snd acc)
  | Subtitle =>
      (ProjectStore.setSubtitlePath (Some (file_path f)) (fst acc), snd acc ++ [f])
  | Other => acc
  end.

Definition handleFiles (files : list File) (st : ProjectState.t)
  : ProjectState.t * list File :=
  fold_left handleFile files (st, []).

End WithLowerCase.

(** [handleSelectVideo]: the renderer's end of 'select-video-file'. *)
Definition handleSelectVideo (dialog : MainProcess.OpenDialogReturnValue)
           (w : App.t) : App.t :=
  match MainProcess.select_video_file dialog with
  | Some p =>
      if truthy p then App.with_project (ProjectStore.setVideoPath (Some p)) w
      else w
  | None => w
  end.

(** [handleSelectSubtitle]: the renderer's end of 'select-subtitle-file';
    a rejected [invoke] leaves the function before any setter runs. *)
Definition handleSelectSubtitle (fs : MainProcess.FileSystem)
           (dialog : MainProcess.OpenDialogReturnValue) (w : App.t) : App.t :=
  match MainProcess.select_subtitle_file fs dialog with
  | Resolved (Some (p, c)) =>
      App.with_project (ProjectStore.setSubtitleContent (Some c))
        (App.with_project (ProjectStore.setSubtitlePath (Some p)) w)
  | Resolved None => w
  | Rejected _ => w
  end.

(** [handleClick]: the dialog for the missing kind of file first. *)
Definition handleClick (fs : MainProcess.FileSystem)
           (dialog : MainProcess.OpenDialogReturnValue) (w : App.t) : App.t :=
  if negb (opt_truthy (ProjectState.videoPath (App.project w))) then
    handleSelectVideo dialog w
  else if negb (opt_truthy (ProjectState.subtitlePath (App.project w))) then
    handleSelectSubtitle fs dialog w
  else
    handleSelectVideo dialog w.

Definition clearVideo (w : App.t) : App.t :=
  App.with_project (ProjectStore.setVideoPath None) w.

Definition clearSubtitle (w : App.t) : App.t :=
  App.with_project (ProjectStore.setSubtitleContent None)
    (App.with_project (ProjectStore.setSubtitlePath None) w).

(** [canStart = videoPath && subtitlePath], as the button reads it. *)
Definition canStart (w : App.t) : bool :=
  opt_truthy (ProjectState.videoPath (App.project w)) &&
  opt_truthy (ProjectState.subtitlePath (App.project w)).

End SetupFiles.

(** ** Editor page: leaving an empty list (renderer/src/pages/EditorPage.tsx) *)

Module EditorMount.

(** The first [useEffect] of [EditorPage]: with no notes, go back to '/'. *)
Definition redirect_if_empty (w : App.t) : App.t :=
  if (length (ProjectState.notes (App.project w)) =? 0)%nat
  then App.navigate SetupRoute w
  else w.

(** The effects of the page the router shows ([App.tsx]): only the editor
    has one that navigates. *)
Definition effects (w : App.t) : App.t :=
  match App.route w with
  | EditorRoute => redirect_if_empty w
  | SetupRoute => w
  | ExportRoute => w
  end.

(** [onDelete] of a note card, followed by the effects of the re-render. *)
Definition delete_note (i : string) (w : App.t) : App.t :=
  effects (App.with_project (ProjectStore.deleteNote i) w).

End EditorMount.

(** ** Main process: the backend child process (main/index.ts) *)

Module PythonBackend.
Import Js.

(** [process.platform], as far as the code tells the values apart. *)
Inductive Platform : Type := win32 | darwin | other_platform.

(** A [ChildProcess]: the object, and its [pid], which is undefined when
    the process could not be spawned. *)
Record ChildProcess : Type := mkChild {
  handle : nat;
  pid : option nat
}.

(** What the main process asks of the system. *)
Inductive Command : Type :=
| Taskkill (pid : nat)
| Sigterm (child : nat)
| Quit.

(** Reading [.toString()] off an undefined [pid]. *)
Inductive StopError : Type := PidUndefined.

(** [stopPythonBackend], on the module variable [pythonProcess]: the new
    value of the variable and the commands issued, or the exception. *)
Definition stopPythonBackend (platform : Platform)
           (pythonProcess : option ChildProcess)
  : Settled (option ChildProcess * list Command) StopError :=
  match pythonProcess with
  | Some child =>
      match platform with
      | win32 =>
          match pid child with
          | Some n => Resolved (None, [Taskkill n])
          | None => Rejected PidUndefined
          end
      | _ => Resolved (None, [Sigterm (handle child)])
      end
  | None => Resolved (None, [])
  end.

(** The handler of the child's 'close' event. *)
Definition on_close (pythonProcess : option ChildProcess) : option ChildProcess :=
  None.

(** The handler of 'window-all-closed'. *)
Definition window_all_closed (platform : Platform) : list Command :=
  match platform with
  | darwin => []
  | _ => [Quit]
  end.

End PythonBackend.

(** ** Properties used in the statements *)

(** The two lists differ at position [k]. *)
Definition differ_at (l l' : list NoteNode) (k : nat) : Prop :=
  nth_error l k <> nth_error l' k.

(** At most one position of the list was changed. *)
Definition at_most_one_changed (l l' : list NoteNode) : Prop :=
  forall j k, differ_at l l' j -> differ_at l l' k -> j = k.

(** The note-list invariant: ascending by [seconds], ids pairwise distinct. *)
Definition NoteInvariant (ns : list NoteNode) : Prop :=
  StronglySorted Qle (map seconds ns) /\ NoDup (map id ns).

(** The two shapes a caller of the entry point would be left with if every
    call ended in a note array or in an error object with a message: a
    response flagged successful, or a response carrying an error string. *)
Definition array_or_error_object
           (r : Js.Settled AnalyzeResponse.t ApiClient.JsError) : Prop :=
  exists resp,
    r = Js.Resolved resp /\
    (AnalyzeResponse.success resp = true \/
     exists msg, AnalyzeResponse.error resp = Some msg).

(** The caller receives a non-empty note array as a successful result. *)
Definition delivers_notes
           (r : Js.Settled AnalyzeResponse.t ApiClient.JsError) : Prop :=
  exists resp,
    r = Js.Resolved resp /\
    AnalyzeResponse.success resp = true /\
    AnalyzeResponse.data resp <> [].

(** The note is the one assembled from the unit of work: the moment's
    seconds, title and content, and the path of its frame, empty when the
    extraction failed. *)
Definition assembled_from (w : Orchestrator.MomentWork) (note : NoteNode) : Prop :=
  seconds note = Pipeline.m_seconds (Orchestrator.moment w) /\
  title note = Pipeline.m_title (Orchestrator.moment w) /\
  content note = Pipeline.m_content (Orchestrator.moment w) /\
  imagePath note =
    match Orchestrator.frame w with
    | Pipeline.Success p _ _ => p
    | Pipeline.Failure _ => ""
    end.

(** The backend's answer does not come within the client's timeout. *)
Definition exceeds_timeout {A : Type} (b : ApiClient.Backend A) : Prop :=
  match b with
  | ApiClient.Replies t _ => (ApiClient.timeout < t)%N
  | ApiClient.Fails t _ => (ApiClient.timeout < t)%N
  | ApiClient.Silent => True
  end.

(** The string has no path separator. *)
Fixpoint no_separator (s : string) : bool :=
  match s with
  | EmptyString => true
  | String c r => negb (ExportPage.is_path_separator c) && no_separator r
  end.

(** What the export reads of a note. *)
Definition exported_fields (note : NoteNode) : string * string * string * string :=
  (title note, timestamp note, imagePath note, content note).

(** The line of the table of contents for the note at position [k]. *)
Definition toc_line (k : nat) (note : NoteNode) : string :=
  (Js.toString_nat (k + 1) ++ ". [" ++ title note ++ "](#"
     ++ ExportPage.anchor note ++ ")")%string.

(** The notes that have an image. *)
Definition with_image (ns : list NoteNode) : list NoteNode :=
  filter (fun note => Js.truthy (imagePath note)) ns.

(** The number of newline characters of a string. *)
Fixpoint newlines (s : string) : nat :=
  match s with
  | EmptyString => 0
  | String c r => (if Ascii.eqb c "010" then 1 else 0) + newlines r
  end.

(** The lines of a text, [s.split('\n')]: a text with [n] newline
    characters has [n + 1] lines, the empty text one empty line. *)
Fixpoint split_lines (s : string) : list string :=
  match s with
  | EmptyString => [EmptyString]
  | String c r =>
      if Ascii.eqb c "010" then EmptyString :: split_lines r
      else
        match split_lines r with
        | [] => [String c EmptyString]
        | line :: more => String c line :: more
        end
  end.

(** The lines a note takes in the exported document: its entry in the table
    of contents, its heading, its timestamp, its content, the rule and four
    blank lines, one line more for every newline of the content, and the
    image with a blank line if it has one. *)
Definition note_line_count (note : NoteNode) : nat :=
  8 + length (split_lines (content note))
    + (if Js.truthy (imagePath note) then 2 else 0).

(** The title, the timestamp and the image path of the note are written on
    one line each. *)
Definition one_line_fields (note : NoteNode) : Prop :=
  newlines (title note) = 0%nat /\
  newlines (timestamp note) = 0%nat /\
  newlines (imagePath note) = 0%nat.

(** The file is of the given kind. *)
Definition of_kind (toLowerCase : string -> string) (k : SetupFiles.Kind)
           (f : SetupFiles.File) : bool :=
  match SetupFiles.kind_of toLowerCase f, k with
  | SetupFiles.Video, SetupFiles.Video => true
  | SetupFiles.Subtitle, SetupFiles.Subtitle => true
  | SetupFiles.Other, SetupFiles.Other => true
  | _, _ => false
  end.

(** The last file of a kind in a drop, if any. *)
Definition last_of_kind (toLowerCase : string -> string) (k : SetupFiles.Kind)
           (files : list SetupFiles.File) : option SetupFiles.File :=
  find (of_kind toLowerCase k) (rev files).

(** The store once the reads handed to [FileReader]s have completed, in the
    order given. *)
Definition complete_reads (order : list SetupFiles.File) (st : ProjectState.t)
  : ProjectState.t :=
  fold_left (fun acc f => SetupFiles.onload f acc) order st.

(** ASCII lower-casing, to run the examples. *)
Fixpoint ascii_lower (s : string) : string :=
  match s with
  | EmptyString => EmptyString
  | String c r =>
      let n := nat_of_ascii c in
      String (if ((65 <=? n) && (n <=? 90))%nat then ascii_of_nat (n + 32) else c)
             (ascii_lower r)
  end.

(** Reading a clock string back: the pieces between colons. *)
Fixpoint split_colon (s : string) (cur : string) : list string :=
  match s with
  | EmptyString => [cur]
  | String c r =>
      if Ascii.eqb c ":" then cur :: split_colon r ""
      else split_colon r (cur ++ String c "")
  end.

(** The number a piece of decimal digits writes. *)
Definition digits_value (s : string) : Z :=
  match NilEmpty.uint_of_string s with
  | Some d => Z.of_uint d
  | None => 0%Z
  end.

(** The seconds a clock string stands for, each colon a factor of 60. *)
Definition clock_seconds (s : string) : Z :=
  fold_left (fun acc piece => (acc * 60 + digits_value piece)%Z)
            (split_colon s "") 0%Z.

(** The decimal digits of a non-negative integer. *)
Definition digits (z : Z) : Decimal.uint :=
  match z with
  | Zpos p => Pos.to_uint p
  | _ => Decimal.D0 Decimal.Nil
  end.

(** The digits after [padStart(2, '0')]. *)
Definition pad_digits (z : Z) : Decimal.uint :=
  if (z <? 10)%Z then Decimal.D0 (digits z) else digits z.

(** Sample data for the closed examples. *)
Module Sample.

Definition note_a1 : NoteNode := mkNoteNode "a" "0:01" 1 "first" "x" "" false.
Definition note_a2 : NoteNode := mkNoteNode "a" "0:02" 2 "second" "y" "" false.
Definition note_b : NoteNode :=
  mkNoteNode "b" "1:05" 65 "third" "z" "/out/frame_2.png" false.

Definition settings_with_key : AppSettings.t :=
  SettingsStore.setApiKey "sk-test" SettingsStore.defaultSettings.

Definition project_ready : ProjectState.t :=
  ProjectStore.setSubtitleContent (Some "00:00:01 --> 00:00:02 hello")
    (ProjectStore.setVideoPath (Some "/videos/talk.mp4") ProjectStore.initialState).

Definition app_ready : App.t :=
  App.mk project_ready settings_with_key SetupLocal.initial SetupRoute.

Definition app_empty_model : App.t :=
  App.mk project_ready (SettingsStore.setModel "" settings_with_key)
         SetupLocal.initial SetupRoute.

Definition params_ready : ApiClient.Params.t :=
  ApiClient.Params.mk "/videos/talk.mp4" "00:00:01 --> 00:00:02 hello"
                      "sk-test" "professional" None (Some "gpt-4o-mini").

(** A backend that answers in time with a failure and no error string. *)
Definition backend_bare_failure
  : ApiClient.Body.t -> ApiClient.Backend AnalyzeResponse.t :=
  fun _ => ApiClient.Replies 1200 (AnalyzeResponse.mk false [] None).

(** A backend that answers in time with one note. *)
Definition backend_one_note
  : ApiClient.Body.t -> ApiClient.Backend AnalyzeResponse.t :=
  fun _ => ApiClient.Replies 1200 (AnalyzeResponse.mk true [note_b] None).

(** A run of three moments under a timeout of 240000 ms: two are complete
    in time, one with its frame and one without, the third is outstanding. *)
Definition run_cut_short : list Orchestrator.MomentWork :=
  [Orchestrator.mkWork (Pipeline.mkMoment 65 "third" "z")
     (Pipeline.Success "/out/frame_2.png" 120 0) 90000;
   Orchestrator.mkWork (Pipeline.mkMoment 1 "first" "x")
     (Pipeline.Failure Pipeline.CodecError) 150000;
   Orchestrator.mkWork (Pipeline.mkMoment 130 "fourth" "u")
     (Pipeline.Success "/out/frame_3.png" 90 0) 400000].

Definition dialog_one_file : MainProcess.OpenDialogReturnValue :=
  MainProcess.mkDialog false ["/videos/talk.srt"].

Definition fs_unreadable : MainProcess.FileSystem := fun _ => None.

Definition fs_one_file : MainProcess.FileSystem :=
  fun f => if String.eqb f "/videos/talk.srt" then Some "hello" else None.

Definition moment_at (secs : Q) : Pipeline.Moment :=
  Pipeline.mkMoment secs "t" "c".

End Sample.

(** ** Health check (SetupPage.handleCheckHealth) *)

Section HealthCheck.
Import Js ApiClient SetupPage.

Variable backend : Backend HealthResponse.t.
Variable w : App.t.

Lemma handleCheckHealth_begin_frame :
  App.project (handleCheckHealth_begin w) = App.project w /\
  App.settings (handleCheckHealth_begin w) = App.settings w /\
  App.route (handleCheckHealth_begin w) = App.route w.
Proof. unfold handleCheckHealth_begin, App.with_setup; simpl; auto. Qed.

Lemma handleCheckHealth_status :
  SetupLocal.healthStatus (App.setup (handleCheckHealth backend w)) =
  match checkHealth backend with
  | Resolved _ => ok
  | Rejected _ => error
  end.
Proof.
  unfold handleCheckHealth.
  destruct (checkHealth backend); reflexivity.
Qed.

End HealthCheck.

(** C7: the health check leaves the project state alone. For every backend
    behaviour and every application state, neither the state reached at the
    [await] nor the final state of [handleCheckHealth] differs from the
    initial one in any field of the project store (videoPath, subtitlePath,
    subtitleContent, notes, isProcessing, processingProgress, error), in the
    settings, in the route or in any other local field; only [healthStatus]
    moves, to [checking] and then to [ok] or [error]. *)
Theorem checkHealth_leaves_project_state :
  forall (backend : ApiClient.Backend HealthResponse.t) (w : App.t),
    let mid := SetupPage.handleCheckHealth_begin w in
    let w' := SetupPage.handleCheckHealth backend w in
    App.project mid = App.project w /\
    App.project w' = App.project w /\
    App.settings w' = App.settings w /\
    App.route w' = App.route w /\
    SetupLocal.settingsOpen (App.setup w') = SetupLocal.settingsOpen (App.setup w) /\
    SetupLocal.isDragging (App.setup w') = SetupLocal.isDragging (App.setup w) /\
    SetupLocal.isProcessing (App.setup w') = SetupLocal.isProcessing (App.setup w) /\
    SetupLocal.errorMsg (App.setup w') = SetupLocal.errorMsg (App.setup w) /\
    SetupLocal.healthStatus (App.setup mid) = checking /\
    SetupLocal.healthStatus (App.setup w') =
      match ApiClient.checkHealth backend with
      | Js.Resolved _ => ok
      | Js.Rejected _ => error
      end.
Proof.
  intros backend w mid w'.
  destruct (handleCheckHealth_begin_frame w) as (Hp & _ & _).
  split; [exact Hp|].
  pose proof (handleCheckHealth_status backend w) as Hs.
  subst mid w'. unfold SetupPage.handleCheckHealth in *.
  destruct (ApiClient.checkHealth backend); simpl in *; repeat split; auto.
Qed.

(** ** Project store: [updateNote] and [deleteNote] *)

Section UpdateNote.
Import ProjectState ProjectStore.

Variable i : string.
Variable updates : PartialNoteNode.

Let touch (note : NoteNode) : NoteNode :=
  if String.eqb (id note) i then spread note updates else note.

Lemma updateNote_notes (st : ProjectState.t) :
  notes (updateNote i updates st) = map touch (notes st).
Proof. reflexivity. Qed.

Lemma touch_other (note : NoteNode) : id note <> i -> touch note = note.
Proof.
  intros H. unfold touch.
  destruct (String.eqb_spec (id note) i); [contradiction | reflexivity].
Qed.

Lemma touch_match (note : NoteNode) : id note = i -> touch note = spread note updates.
Proof.
  intros H. unfold touch. rewrite H, String.eqb_refl. reflexivity.
Qed.

Lemma touch_id (note : NoteNode) : p_id updates = None -> id (touch note) = id note.
Proof.
  intros H. unfold touch.
  destruct (String.eqb (id note) i); [simpl; rewrite H|]; reflexivity.
Qed.

Lemma touch_seconds (note : NoteNode) :
  p_seconds updates = None -> seconds (touch note) = seconds note.
Proof.
  intros H. unfold touch.
  destruct (String.eqb (id note) i); [simpl; rewrite H|]; reflexivity.
Qed.

Lemma map_touch_ids (ns : list NoteNode) :
  p_id updates = None -> map id (map touch ns) = map id ns.
Proof.
  intros H. rewrite map_map. apply map_ext. intros; now apply touch_id.
Qed.

Lemma map_touch_seconds (ns : list NoteNode) :
  p_seconds updates = None -> map seconds (map touch ns) = map seconds ns.
Proof.
  intros H. rewrite map_map. apply map_ext. intros; now apply touch_seconds.
Qed.

Lemma map_touch_absent (ns : list NoteNode) :
  (forall note, In note ns -> id note <> i) -> map touch ns = ns.
Proof.
  intros H. rewrite <- (map_id ns) at 2.
  apply map_ext_in. intros note Hin. apply touch_other. now apply H.
Qed.

(** A position that differs after the update held a note with the id. *)
Lemma differ_at_matches (ns : list NoteNode) (k : nat) :
  differ_at ns (map touch ns) k ->
  exists note, nth_error ns k = Some note /\ id note = i.
Proof.
  unfold differ_at. rewrite nth_error_map.
  destruct (nth_error ns k) as [note|] eqn:E; simpl; intros H.
  - exists note. split; [reflexivity|].
    destruct (String.eqb_spec (id note) i) as [Heq|Hne]; [exact Heq|].
    exfalso. apply H. now rewrite touch_other.
  - now contradiction H.
Qed.

Lemma unique_id_one_change (ns : list NoteNode) :
  NoDup (map id ns) -> at_most_one_changed ns (map touch ns).
Proof.
  intros Hnd j k Hj Hk.
  destruct (differ_at_matches _ _ Hj) as (nj & Ej & Ij).
  destruct (differ_at_matches _ _ Hk) as (nk & Ek & Ik).
  rewrite NoDup_nth_error in Hnd. apply Hnd.
  - rewrite length_map. apply nth_error_Some. now rewrite Ej.
  - rewrite !nth_error_map, Ej, Ek. simpl. congruence.
Qed.

End UpdateNote.

(** C8, as the store has it: [updateNote(id, updates)] with no [id] among the
    updates rewrites every note whose id matches (the given fields merged in,
    [isEdited] set, the id kept) and nothing else: the other store fields, the
    length of the list, the sequence of ids and every note with another id stay
    as they were; a list without the id is unchanged; and when the ids of
    the list are pairwise distinct at most one position changes. *)
Theorem updateNote_rewrites_matching_notes :
  forall (i : string) (updates : PartialNoteNode) (st : ProjectState.t),
    p_id updates = None ->
    let st' := ProjectStore.updateNote i updates st in
    ProjectState.videoPath st' = ProjectState.videoPath st /\
    ProjectState.subtitlePath st' = ProjectState.subtitlePath st /\
    ProjectState.subtitleContent st' = ProjectState.subtitleContent st /\
    ProjectState.isProcessing st' = ProjectState.isProcessing st /\
    ProjectState.processingProgress st' = ProjectState.processingProgress st /\
    ProjectState.error st' = ProjectState.error st /\
    length (ProjectState.notes st') = length (ProjectState.notes st) /\
    map id (ProjectState.notes st') = map id (ProjectState.notes st) /\
    (forall k note,
        nth_error (ProjectState.notes st) k = Some note ->
        id note <> i ->
        nth_error (ProjectState.notes st') k = Some note) /\
    (forall k note,
        nth_error (ProjectState.notes st) k = Some note ->
        id note = i ->
        exists note',
          nth_error (ProjectState.notes st') k = Some note' /\
          id note' = id note /\
          isEdited note' = true /\
          timestamp note' =
            match p_timestamp updates with Some v => v | None => timestamp note end /\
          seconds note' =
            match p_seconds updates with Some v => v | None => seconds note end /\
          title note' =
            match p_title updates with Some v => v | None => title note end /\
          content note' =
            match p_content updates with Some v => v | None => content note end /\
          imagePath note' =
            match p_imagePath updates with Some v => v | None => imagePath note end) /\
    ((forall note, In note (ProjectState.notes st) -> id note <> i) ->
     ProjectState.notes st' = ProjectState.notes st) /\
    (NoDup (map id (ProjectState.notes st)) ->
     at_most_one_changed (ProjectState.notes st) (ProjectState.notes st')).
Proof.
  intros i updates st Hid st'. subst st'.
  rewrite updateNote_notes.
  do 6 (split; [reflexivity|]).
  split; [apply length_map|].
  split; [now apply map_touch_ids|].
  split.
  { intros k note Hk Hne. rewrite nth_error_map, Hk. simpl.
    now rewrite touch_other. }
  split.
  { intros k note Hk Heq. exists (ProjectStore.spread note updates).
    rewrite nth_error_map, Hk. simpl. rewrite touch_match by exact Heq.
    simpl. rewrite Hid. repeat split; reflexivity. }
  split; [apply map_touch_absent | apply unique_id_one_change].
Qed.

(** The theorem at a list of two notes, updating the title of note "b". *)
Lemma updateNote_rewrites_matching_notes_witness :
  p_id (EditorPage.title_update "renamed") = None /\
  at_most_one_changed
    [Sample.note_a1; Sample.note_b]
    (ProjectState.notes
       (ProjectStore.updateNote "b" (EditorPage.title_update "renamed")
          (ProjectStore.setNotes [Sample.note_a1; Sample.note_b]
             ProjectStore.initialState))).
Proof.
  split; [reflexivity|].
  apply (updateNote_rewrites_matching_notes "b" (EditorPage.title_update "renamed")
           (ProjectStore.setNotes [Sample.note_a1; Sample.note_b]
              ProjectStore.initialState) eq_refl).
  simpl. repeat constructor; simpl; intuition discriminate.
Defined.

(** C8 as stated fails on a list in which two notes share the id: both are
    rewritten by one [updateNote]. *)
Lemma updateNote_shared_id_rewrites_both :
  p_id (EditorPage.title_update "renamed") = None /\
  ~ at_most_one_changed
      [Sample.note_a1; Sample.note_a2]
      (ProjectState.notes
         (ProjectStore.updateNote "a" (EditorPage.title_update "renamed")
            (ProjectStore.setNotes [Sample.note_a1; Sample.note_a2]
               ProjectStore.initialState))).
Proof.
  split; [reflexivity|].
  intros H. specialize (H 0%nat 1%nat).
  assert (0 = 1)%nat as E; [|discriminate E].
  apply H; unfold differ_at; simpl; intros E; discriminate E.
Qed.

(** ** File selection (main/index.ts) *)

Section FileSelection.
Import Js MainProcess.

Variable fs : FileSystem.

Lemma nothing_chosen_iff (r : OpenDialogReturnValue) :
  canceled r || (length (filePaths r) =? 0)%nat = true <->
  canceled r = true \/ filePaths r = [].
Proof.
  rewrite orb_true_iff, Nat.eqb_eq, length_zero_iff_nil. reflexivity.
Qed.

Lemma something_chosen (r : OpenDialogReturnValue) (p : string) (rest : list string) :
  canceled r = false -> filePaths r = p :: rest ->
  canceled r || (length (filePaths r) =? 0)%nat = false.
Proof. intros Hc Hf. rewrite Hc, Hf. reflexivity. Qed.

Lemma select_video_file_null (r : OpenDialogReturnValue) :
  select_video_file r = None <-> canceled r = true \/ filePaths r = [].
Proof.
  unfold select_video_file, first_path. rewrite <- nothing_chosen_iff.
  destruct (canceled r); simpl; [tauto|].
  destruct (filePaths r); simpl; split; intros H; auto; discriminate H.
Qed.

Lemma select_subtitle_file_null (r : OpenDialogReturnValue) :
  select_subtitle_file fs r = Resolved None <->
  canceled r = true \/ filePaths r = [].
Proof.
  unfold select_subtitle_file, first_path, readFileSync.
  rewrite <- nothing_chosen_iff.
  destruct (canceled r); simpl; [tauto|].
  destruct (filePaths r) as [|f rest]; simpl; [tauto|].
  destruct (fs f); split; intros H; discriminate H.
Qed.

End FileSelection.

(** C10, as the handlers have it: 'select-video-file' returns null exactly
    when the dialog was canceled or gave no path, and the first path
    otherwise; 'select-subtitle-file' returns null under the same condition;
    otherwise it reads the first path and returns the pair of the path and the
    content when the read succeeds, and lets the exception of [readFileSync]
    escape when the read fails. *)
Theorem select_file_handlers :
  forall (fs : MainProcess.FileSystem) (r : MainProcess.OpenDialogReturnValue),
    (MainProcess.select_video_file r = None <->
     MainProcess.canceled r = true \/ MainProcess.filePaths r = []) /\
    (forall p rest,
        MainProcess.canceled r = false ->
        MainProcess.filePaths r = p :: rest ->
        MainProcess.select_video_file r = Some p) /\
    (MainProcess.select_subtitle_file fs r = Js.Resolved None <->
     MainProcess.canceled r = true \/ MainProcess.filePaths r = []) /\
    (forall p rest content,
        MainProcess.canceled r = false ->
        MainProcess.filePaths r = p :: rest ->
        fs p = Some content ->
        MainProcess.select_subtitle_file fs r = Js.Resolved (Some (p, content))) /\
    (forall p rest,
        MainProcess.canceled r = false ->
        MainProcess.filePaths r = p :: rest ->
        fs p = None ->
        MainProcess.select_subtitle_file fs r =
        Js.Rejected (MainProcess.ReadFailed p)).
Proof.
  intros fs r.
  split; [apply select_video_file_null|].
  split.
  { intros p rest Hc Hf. unfold MainProcess.select_video_file.
    rewrite (something_chosen r p rest Hc Hf).
    unfold MainProcess.first_path. now rewrite Hf. }
  split; [apply select_subtitle_file_null|].
  split; intros p rest; [intros content|]; intros Hc Hf Hfs;
    unfold MainProcess.select_subtitle_file;
    rewrite (something_chosen r p rest Hc Hf);
    unfold MainProcess.first_path, MainProcess.readFileSync;
    rewrite Hf; simpl; now rewrite Hfs.
Qed.

(** The theorem at a dialog that returns one readable subtitle file. *)
Lemma select_file_handlers_witness :
  MainProcess.select_video_file Sample.dialog_one_file = Some "/videos/talk.srt" /\
  MainProcess.select_subtitle_file Sample.fs_one_file Sample.dialog_one_file =
  Js.Resolved (Some ("/videos/talk.srt", "hello")).
Proof.
  destruct (select_file_handlers Sample.fs_one_file Sample.dialog_one_file)
    as (_ & Hvideo & _ & Hpair & _).
  split.
  - apply (Hvideo "/videos/talk.srt" []); reflexivity.
  - apply (Hpair "/videos/talk.srt" [] "hello"); reflexivity.
Defined.

(** C10 as stated fails when the chosen subtitle file cannot be read: the
    dialog was not canceled and gave a path, yet the handler returns neither
    null nor a pair, it throws. *)
Lemma select_subtitle_file_unreadable_throws :
  MainProcess.canceled Sample.dialog_one_file = false /\
  MainProcess.filePaths Sample.dialog_one_file <> [] /\
  (forall v,
      MainProcess.select_subtitle_file Sample.fs_unreadable Sample.dialog_one_file
      <> Js.Resolved v) /\
  MainProcess.select_subtitle_file Sample.fs_unreadable Sample.dialog_one_file =
  Js.Rejected (MainProcess.ReadFailed "/videos/talk.srt").
Proof.
  split; [reflexivity|].
  split; [discriminate|].
  split; [intros v H; discriminate H | reflexivity].
Qed.

(** ** Starting a run (SetupPage.handleStart) *)

Section HandleStart.
Import Js ApiClient SetupPage.

Lemma or_else_truthy (s d : string) : truthy d = true -> truthy (or_else s d) = true.
Proof. intros Hd. unfold or_else. destruct (truthy s) eqn:E; assumption. Qed.

Lemma opt_or_else_truthy (o : option string) (d : string) :
  truthy d = true -> truthy (opt_or_else o d) = true.
Proof. intros Hd. destruct o; simpl; [now apply or_else_truthy | assumption]. Qed.

Lemma truthy_nonempty (s : string) : truthy s = true <-> s <> "".
Proof.
  destruct s; simpl; split; intros H; try discriminate; auto.
Qed.

Lemma failure_message_nonempty (o : option string) : opt_or_else o msg_failed <> "".
Proof. apply truthy_nonempty, opt_or_else_truthy. reflexivity. Qed.

Lemma navigate_project (r : Route) (v : App.t) :
  App.project (App.navigate r v) = App.project v.
Proof. unfold App.navigate. now destruct (App.route_eqb r (App.route v)). Qed.

Lemma navigate_settings (r : Route) (v : App.t) :
  App.settings (App.navigate r v) = App.settings v.
Proof. unfold App.navigate. now destruct (App.route_eqb r (App.route v)). Qed.

Lemma navigate_route (r : Route) (v : App.t) :
  App.route (App.navigate r v) = r.
Proof.
  unfold App.navigate.
  destruct (App.route_eqb r (App.route v)) eqn:E; [|reflexivity].
  destruct r, (App.route v); simpl in E; congruence.
Qed.

Lemma navigate_setup (r : Route) (v : App.t) :
  App.setup (App.navigate r v) =
  if App.route_eqb r (App.route v) then App.setup v else SetupLocal.initial.
Proof. unfold App.navigate. now destruct (App.route_eqb r (App.route v)). Qed.

Variable backend : Body.t -> Backend AnalyzeResponse.t.
Variable w : App.t.
Variable params : Params.t.
Hypothesis Hguard : handleStart_guard w = Ready params.

Lemma handleStart_ready :
  handleStart backend w =
  handleStart_settle (analyzeVideo backend params) (handleStart_begin w).
Proof. unfold handleStart. now rewrite Hguard. Qed.

Lemma handleStart_clears_flags :
  ProjectState.isProcessing (App.project (handleStart backend w)) = false /\
  SetupLocal.isProcessing (App.setup (handleStart backend w)) = false.
Proof.
  rewrite handleStart_ready. unfold handleStart_settle.
  destruct (analyzeVideo backend params) as [resp|e];
    [destruct (AnalyzeResponse.success resp)|]; split; reflexivity.
Qed.

Lemma handleStart_success (resp : AnalyzeResponse.t) :
  analyzeVideo backend params = Resolved resp ->
  AnalyzeResponse.success resp = true ->
  ProjectState.notes (App.project (handleStart backend w)) = AnalyzeResponse.data resp /\
  App.route (handleStart backend w) = EditorRoute /\
  SetupLocal.errorMsg (App.setup (handleStart backend w)) = "".
Proof.
  intros Hr Hs. rewrite handleStart_ready, Hr. unfold handleStart_settle.
  rewrite Hs. cbv zeta.
  unfold App.with_project, App.with_setup.
  cbn [App.project App.route App.setup App.settings].
  rewrite navigate_project, navigate_route, navigate_setup.
  repeat split; try reflexivity.
  now destruct (App.route_eqb _ _).
Qed.

Lemma handleStart_failure (resp : AnalyzeResponse.t) :
  analyzeVideo backend params = Resolved resp ->
  AnalyzeResponse.success resp = false ->
  ProjectState.notes (App.project (handleStart backend w)) =
    ProjectState.notes (App.project w) /\
  App.route (handleStart backend w) = App.route w /\
  SetupLocal.errorMsg (App.setup (handleStart backend w)) =
    opt_or_else (AnalyzeResponse.error resp) msg_failed.
Proof.
  intros Hr Hs. rewrite handleStart_ready, Hr. unfold handleStart_settle.
  rewrite Hs. repeat split; reflexivity.
Qed.

Lemma handleStart_rejected (e : JsError) :
  analyzeVideo backend params = Rejected e ->
  ProjectState.notes (App.project (handleStart backend w)) =
    ProjectState.notes (App.project w) /\
  App.route (handleStart backend w) = App.route w /\
  SetupLocal.errorMsg (App.setup (handleStart backend w)) =
    opt_or_else (message e) msg_failed.
Proof.
  intros Hr. rewrite handleStart_ready, Hr. unfold handleStart_settle.
  repeat split; reflexivity.
Qed.

Lemma request_late (A : Type) (b : Backend A) :
  exceeds_timeout b -> request b = Rejected timeoutError.
Proof.
  destruct b as [t body|t e|]; simpl; intros H; try reflexivity;
    apply N.ltb_lt in H; now rewrite H.
Qed.

Lemma request_resolved (A : Type) (b : Backend A) (v : A) :
  request b = Resolved v ->
  exists t, b = Replies t v /\ (t <= timeout)%N.
Proof.
  destruct b as [t body|t e|]; simpl; try discriminate.
  - destruct (N.ltb_spec timeout t) as [Hlt|Hle]; intros Hv; inversion Hv; subst.
    exists t. split; [reflexivity | assumption].
  - destruct (timeout <? t)%N; discriminate.
Qed.

End HandleStart.

(** C1, as the request layer has it: a call of [analyzeVideo] made by
    [handleStart] ends in one of three shapes. A response with [success] true:
    its [data] array becomes the stored notes and the editor is opened. A
    response with [success] false: its optional [error] string, a bare message
    with no error code, is shown, or the fixed text when it is absent or
    empty. A rejected request: its message, or the same fixed text, is shown.
    In the two failure shapes the notes and the route are untouched and the
    message shown is not empty; in all three the processing flags are
    cleared. *)
Theorem handleStart_three_outcomes :
  forall (backend : ApiClient.Body.t -> ApiClient.Backend AnalyzeResponse.t)
         (w : App.t) (params : ApiClient.Params.t),
    SetupPage.handleStart_guard w = SetupPage.Ready params ->
    let w' := SetupPage.handleStart backend w in
    ProjectState.isProcessing (App.project w') = false /\
    SetupLocal.isProcessing (App.setup w') = false /\
    match ApiClient.analyzeVideo backend params with
    | Js.Resolved resp =>
        if AnalyzeResponse.success resp then
          ProjectState.notes (App.project w') = AnalyzeResponse.data resp /\
          App.route w' = EditorRoute /\
          SetupLocal.errorMsg (App.setup w') = ""
        else
          ProjectState.notes (App.project w') = ProjectState.notes (App.project w) /\
          App.route w' = App.route w /\
          SetupLocal.errorMsg (App.setup w') =
            Js.opt_or_else (AnalyzeResponse.error resp) SetupPage.msg_failed /\
          SetupLocal.errorMsg (App.setup w') <> ""
    | Js.Rejected e =>
        ProjectState.notes (App.project w') = ProjectState.notes (App.project w) /\
        App.route w' = App.route w /\
        SetupLocal.errorMsg (App.setup w') =
          Js.opt_or_else (ApiClient.message e) SetupPage.msg_failed /\
        SetupLocal.errorMsg (App.setup w') <> ""
    end.
Proof.
  intros backend w params Hguard w'. subst w'.
  destruct (handleStart_clears_flags backend w params Hguard) as (Hp & Hl).
  split; [exact Hp|]. split; [exact Hl|].
  destruct (ApiClient.analyzeVideo backend params) as [resp|e] eqn:Hr.
  - destruct (AnalyzeResponse.success resp) eqn:Hs.
    + exact (handleStart_success backend w params Hguard resp Hr Hs).
    + destruct (handleStart_failure backend w params Hguard resp Hr Hs)
        as (Hn & Hroute & Hmsg).
      repeat split; try assumption.
      rewrite Hmsg. apply failure_message_nonempty.
  - destruct (handleStart_rejected backend w params Hguard e Hr)
      as (Hn & Hroute & Hmsg).
    repeat split; try assumption.
    rewrite Hmsg. apply failure_message_nonempty.
Qed.

(** The theorem at a ready application and a backend that answers with one
    note. *)
Lemma handleStart_three_outcomes_witness :
  SetupPage.handleStart_guard Sample.app_ready = SetupPage.Ready Sample.params_ready /\
  ProjectState.notes
    (App.project (SetupPage.handleStart Sample.backend_one_note Sample.app_ready)) =
  [Sample.note_b].
Proof.
  split; [reflexivity|].
  destruct (handleStart_three_outcomes Sample.backend_one_note Sample.app_ready
              Sample.params_ready eq_refl) as (_ & _ & H).
  simpl in H. destruct H as (H & _). exact H.
Defined.

(** C1 as stated fails: a response may be flagged unsuccessful and carry no
    error string at all (the page then shows its own fixed text), which is
    neither a note array nor an error object with a message. *)
Lemma analyzeVideo_bare_failure_shape :
  ApiClient.analyzeVideo Sample.backend_bare_failure Sample.params_ready =
    Js.Resolved (AnalyzeResponse.mk false [] None) /\
  ~ array_or_error_object
      (ApiClient.analyzeVideo Sample.backend_bare_failure Sample.params_ready) /\
  SetupLocal.errorMsg
    (App.setup (SetupPage.handleStart Sample.backend_bare_failure Sample.app_ready)) =
  SetupPage.msg_failed.
Proof.
  split; [reflexivity|]. split; [|reflexivity].
  intros (resp & Hr & [Hs | (msg & Hm)]); inversion Hr; subst; discriminate.
Qed.

(** X19: the client's own timeout. When the backend's answer to the
    '/analyze_video' request does not come within the 300000 ms of
    [apiClient], the request is rejected with the timeout error and
    [handleStart] shows its message; no notes are delivered, the stored notes
    and the route stay as they were, and the processing flags are cleared. *)
Theorem request_timeout_is_reported_as_error :
  forall (backend : ApiClient.Body.t -> ApiClient.Backend AnalyzeResponse.t)
         (w : App.t) (params : ApiClient.Params.t),
    SetupPage.handleStart_guard w = SetupPage.Ready params ->
    exceeds_timeout (backend (ApiClient.analyzeVideo_body params)) ->
    let w' := SetupPage.handleStart backend w in
    ApiClient.analyzeVideo backend params = Js.Rejected ApiClient.timeoutError /\
    ~ delivers_notes (ApiClient.analyzeVideo backend params) /\
    ProjectState.notes (App.project w') = ProjectState.notes (App.project w) /\
    App.route w' = App.route w /\
    SetupLocal.errorMsg (App.setup w') = "timeout of 300000ms exceeded" /\
    ProjectState.isProcessing (App.project w') = false /\
    SetupLocal.isProcessing (App.setup w') = false.
Proof.
  intros backend w params Hguard Hlate w'. subst w'.
  assert (ApiClient.analyzeVideo backend params = Js.Rejected ApiClient.timeoutError)
    as Hr by (unfold ApiClient.analyzeVideo; now apply request_late).
  destruct (handleStart_rejected backend w params Hguard _ Hr) as (Hn & Hroute & Hmsg).
  destruct (handleStart_clears_flags backend w params Hguard) as (Hp & Hl).
  split; [exact Hr|].
  split; [rewrite Hr; intros (resp & Hres & _); discriminate Hres|].
  repeat split; assumption.
Qed.

(** The theorem at a backend that never answers. *)
Lemma request_timeout_is_reported_as_error_witness :
  SetupPage.handleStart_guard Sample.app_ready = SetupPage.Ready Sample.params_ready /\
  exceeds_timeout
    ((fun _ => ApiClient.Silent) (ApiClient.analyzeVideo_body Sample.params_ready)
     : ApiClient.Backend AnalyzeResponse.t) /\
  SetupLocal.errorMsg
    (App.setup (SetupPage.handleStart (fun _ => ApiClient.Silent) Sample.app_ready)) =
  "timeout of 300000ms exceeded".
Proof.
  split; [reflexivity|]. split; [exact I|].
  apply (request_timeout_is_reported_as_error
           (fun _ => ApiClient.Silent) Sample.app_ready Sample.params_ready
           eq_refl I).
Defined.

(** ** The request body *)

Section RequestBody.
Import Js ApiClient SetupPage.

Lemma style_name_enum (o : OutputStyle) :
  style_name o = "professional" \/ style_name o = "blog" \/ style_name o = "tutorial".
Proof. destruct o; simpl; auto. Qed.

Lemma guard_ready_inv (w : App.t) (params : Params.t) :
  handleStart_guard w = Ready params ->
  ProjectState.videoPath (App.project w) = Some (Params.videoPath params) /\
  ProjectState.subtitleContent (App.project w) = Some (Params.subtitleText params) /\
  Params.apiKey params = AppSettings.apiKey (App.settings w) /\
  truthy (Params.videoPath params) = true /\
  truthy (Params.subtitleText params) = true /\
  truthy (Params.apiKey params) = true /\
  Params.stylePrompt params = style_name (AppSettings.outputStyle (App.settings w)) /\
  Params.baseUrl params =
    match AppSettings.baseUrl (App.settings w) with
    | Some u => or_undefined u
    | None => None
    end /\
  Params.model params = Some (AppSettings.model (App.settings w)).
Proof.
  unfold handleStart_guard.
  destruct (ProjectState.videoPath (App.project w)) as [v|]; [|discriminate].
  destruct (ProjectState.subtitleContent (App.project w)) as [c|]; [|discriminate].
  destruct (truthy v) eqn:Hv; [|discriminate].
  destruct (truthy c) eqn:Hc; [|discriminate].
  simpl.
  destruct (truthy (AppSettings.apiKey (App.settings w))) eqn:Hk; [|discriminate].
  intros H. inversion H; subst; clear H. simpl.
  repeat split; assumption.
Qed.

End RequestBody.

(** C6, as the setup flow has it: every request [handleStart] sends has the
    six fields of the body, filled from the values in scope at the call and
    from nothing else: [video_path] and [subtitle_text] are the project's
    video path and subtitle content, [api_key] is the (non-empty) key of the
    settings, [style] is the name of the settings' output style and so one of
    professional, blog, tutorial; [base_url] is the settings' base URL, or
    undefined when that is empty or missing; [model] is the settings' model,
    or "gpt-4o-mini" when that is empty. That body is the only thing the
    backend is asked: [handleStart] depends on the backend through its answer
    to it alone. *)
Theorem handleStart_request_fields :
  forall (w : App.t) (body : ApiClient.Body.t),
    SetupPage.handleStart_request w = Some body ->
    ProjectState.videoPath (App.project w) = Some (ApiClient.Body.video_path body) /\
    ProjectState.subtitleContent (App.project w) =
      Some (ApiClient.Body.subtitle_text body) /\
    ApiClient.Body.api_key body = AppSettings.apiKey (App.settings w) /\
    ApiClient.Body.api_key body <> "" /\
    ApiClient.Body.style body =
      SetupPage.style_name (AppSettings.outputStyle (App.settings w)) /\
    (ApiClient.Body.style body = "professional" \/
     ApiClient.Body.style body = "blog" \/
     ApiClient.Body.style body = "tutorial") /\
    ApiClient.Body.base_url body =
      match AppSettings.baseUrl (App.settings w) with
      | Some u => Js.or_undefined u
      | None => None
      end /\
    ApiClient.Body.model body =
      Js.or_else (AppSettings.model (App.settings w)) "gpt-4o-mini" /\
    (forall backend backend',
        backend body = backend' body ->
        SetupPage.handleStart backend w = SetupPage.handleStart backend' w).
Proof.
  intros w body. unfold SetupPage.handleStart_request.
  destruct (SetupPage.handleStart_guard w) as [| |params] eqn:Hg; try discriminate.
  intros H. inversion H; subst; clear H.
  destruct (guard_ready_inv w params Hg)
    as (Hv & Hc & Hk & _ & _ & Hkt & Hs & Hb & Hm).
  assert (forall backend backend',
             backend (ApiClient.analyzeVideo_body params) =
             backend' (ApiClient.analyzeVideo_body params) ->
             SetupPage.handleStart backend w = SetupPage.handleStart backend' w)
    as Honly.
  { intros backend backend' Hsame.
    rewrite !(handleStart_ready _ w params Hg).
    unfold ApiClient.analyzeVideo. now rewrite Hsame. }
  unfold ApiClient.analyzeVideo_body in *; simpl.
  rewrite Hm, Hs in *. simpl in *.
  repeat split; try assumption.
  - now apply truthy_nonempty.
  - apply style_name_enum.
Qed.

(** The theorem at the default settings with an API key. *)
Lemma handleStart_request_fields_witness :
  SetupPage.handleStart_request Sample.app_ready =
    Some (ApiClient.analyzeVideo_body Sample.params_ready) /\
  ApiClient.Body.model (ApiClient.analyzeVideo_body Sample.params_ready) =
    Js.or_else (AppSettings.model (App.settings Sample.app_ready)) "gpt-4o-mini".
Proof.
  split; [reflexivity|].
  destruct (handleStart_request_fields Sample.app_ready
              (ApiClient.analyzeVideo_body Sample.params_ready) eq_refl)
    as (_ & _ & _ & _ & _ & _ & _ & Hmodel & _).
  exact Hmodel.
Defined.

(** C6 as stated fails on the model: with the model of the settings cleared,
    the request carries "gpt-4o-mini", a value that was not passed in. *)
Lemma empty_model_is_replaced :
  AppSettings.model (App.settings Sample.app_empty_model) = "" /\
  SetupPage.handleStart_request Sample.app_empty_model =
    Some (ApiClient.Body.mk "/videos/talk.mp4" "00:00:01 --> 00:00:02 hello"
            "sk-test" "professional" None "gpt-4o-mini") /\
  "gpt-4o-mini" <> AppSettings.model (App.settings Sample.app_empty_model).
Proof.
  split; [reflexivity|]. split; [reflexivity|]. discriminate.
Qed.

(** ** Markdown export (ExportPage.generateMarkdown) *)

Section Markdown.
Import Js ExportPage.

Lemma push_app (a b : list string) (x : string) : push (a ++ b) x = a ++ push b x.
Proof. unfold push. now rewrite app_assoc. Qed.

Lemma push_nil (a : list string) (x : string) : push a x = a ++ push [] x.
Proof. reflexivity. Qed.

Lemma toc_entry_app (lines : list string) (note : NoteNode) (k : nat) :
  toc_entry lines note k = lines ++ toc_entry [] note k.
Proof. reflexivity. Qed.

(** The body of the second loop only appends to [lines]. *)
Lemma note_section_app (mode : ImageMode) (lines : list string)
      (note : NoteNode) (k : nat) :
  note_section mode lines note k = lines ++ note_section mode [] note 0.
Proof.
  unfold note_section, push.
  destruct (truthy (imagePath note)); destruct mode; simpl;
    repeat rewrite <- app_assoc; reflexivity.
Qed.

Lemma note_section_mode (lines : list string) (note : NoteNode) (k : nat) :
  note_section base64 lines note k = note_section path lines note k.
Proof.
  unfold note_section. destruct (truthy (imagePath note)); reflexivity.
Qed.

Lemma forEach_ext (Acc : Type) (f g : Acc -> NoteNode -> nat -> Acc) :
  (forall acc note k, f acc note k = g acc note k) ->
  forall ns k acc, forEach f ns k acc = forEach g ns k acc.
Proof.
  intros Hfg ns. induction ns as [|note rest IH]; intros k acc; simpl.
  - reflexivity.
  - rewrite Hfg. apply IH.
Qed.

Lemma forEach_toc_app (ns : list NoteNode) :
  forall k lines,
    forEach toc_entry ns k lines = lines ++ forEach toc_entry ns k [].
Proof.
  induction ns as [|note rest IH]; intros k lines; simpl.
  - now rewrite app_nil_r.
  - rewrite IH, (IH (S k) (toc_entry [] note k)), toc_entry_app.
    now rewrite app_assoc.
Qed.

Lemma forEach_sections (mode : ImageMode) (ns : list NoteNode) :
  forall k lines,
    forEach (note_section mode) ns k lines =
    lines ++ flat_map (fun note => note_section mode [] note 0) ns.
Proof.
  induction ns as [|note rest IH]; intros k lines; simpl.
  - now rewrite app_nil_r.
  - rewrite IH, note_section_app. now rewrite app_assoc.
Qed.

Lemma generateMarkdown_lines_shape (mode : ImageMode) (videoPath : option string)
      (ns : list NoteNode) :
  generateMarkdown_lines mode videoPath ns =
  [("# " ++ videoName videoPath)%string; ""; "> 由 Video2Note 自动生成"; ""; "---"; "";
   "## 目录"; ""]
    ++ forEach toc_entry ns 0 []
    ++ [""; "---"; ""]
    ++ flat_map (fun note => note_section mode [] note 0) ns.
Proof.
  unfold generateMarkdown_lines.
  rewrite forEach_sections. unfold push.
  rewrite (forEach_toc_app ns 0). simpl.
  repeat rewrite <- app_assoc. reflexivity.
Qed.

Lemma note_section_without_image (mode : ImageMode) (lines : list string)
      (note : NoteNode) (k : nat) :
  imagePath note = "" ->
  note_section mode lines note k =
  lines ++ [("## " ++ title note ++ " {#" ++ anchor note ++ "}")%string; "";
            ("**时间戳**: `" ++ timestamp note ++ "`")%string; "";
            content note; ""; "---"; ""].
Proof.
  intros H. rewrite note_section_app. unfold note_section. now rewrite H.
Qed.

Lemma note_section_with_image (mode : ImageMode) (lines : list string)
      (note : NoteNode) (k : nat) :
  imagePath note <> "" ->
  note_section mode lines note k =
  lines ++ [("## " ++ title note ++ " {#" ++ anchor note ++ "}")%string; "";
            ("**时间戳**: `" ++ timestamp note ++ "`")%string; "";
            image_line note; "";
            content note; ""; "---"; ""].
Proof.
  intros H. rewrite note_section_app. unfold note_section.
  apply truthy_nonempty in H. rewrite H. destruct mode; reflexivity.
Qed.

(** The first loop pushes one numbered entry per note. *)
Lemma forEach_toc_lines (ns : list NoteNode) :
  forall k,
    forEach toc_entry ns k [] =
    map (fun entry => toc_line (fst entry) (snd entry))
        (combine (seq k (length ns)) ns).
Proof.
  induction ns as [|note rest IH]; intros k; simpl; [reflexivity|].
  rewrite forEach_toc_app, IH. reflexivity.
Qed.

(** What the second loop pushes for one note. *)
Lemma note_section_lines (mode : ImageMode) (note : NoteNode) :
  note_section mode [] note 0 =
  [("## " ++ title note ++ " {#" ++ anchor note ++ "}")%string; "";
   ("**时间戳**: `" ++ timestamp note ++ "`")%string; ""]
    ++ (if String.eqb (imagePath note) "" then []
        else [("![" ++ title note ++ "](" ++ imagePath note ++ ")")%string; ""])
    ++ [content note; ""; "---"; ""].
Proof.
  unfold note_section, push.
  destruct (imagePath note); destruct mode; reflexivity.
Qed.

End Markdown.

(** C9: [generateMarkdown] is a function of the image mode, the video path and
    the note list alone, and the mode makes no difference: 'base64' gives the
    very string 'path' gives. The returned string is, joined by newlines: the
    heading block, one numbered entry of the table of contents per note, a
    rule, and one section per note in list order; the section of a note has
    the image line (with the local path) and the blank line after it exactly
    when the note's [imagePath] is not empty. *)
Theorem generateMarkdown_modes_agree :
  forall (videoPath : option string) (ns : list NoteNode),
    ExportPage.generateMarkdown ExportPage.base64 videoPath ns =
    ExportPage.generateMarkdown ExportPage.path videoPath ns /\
    (forall mode,
        ExportPage.generateMarkdown mode videoPath ns =
        String.concat (String "010" "")
          ([("# " ++ ExportPage.videoName videoPath)%string; "";
            "> 由 Video2Note 自动生成"; ""; "---"; ""; "## 目录"; ""]
             ++ map (fun entry =>
                       (Js.toString_nat (fst entry + 1) ++ ". [" ++ title (snd entry)
                          ++ "](#" ++ Js.remove_char ":" (timestamp (snd entry))
                          ++ ")")%string)
                    (combine (seq 0 (length ns)) ns)
             ++ [""; "---"; ""]
             ++ flat_map
                  (fun note =>
                     [("## " ++ title note ++ " {#"
                         ++ Js.remove_char ":" (timestamp note) ++ "}")%string; "";
                      ("**时间戳**: `" ++ timestamp note ++ "`")%string; ""]
                       ++ (if String.eqb (imagePath note) "" then []
                           else [("![" ++ title note ++ "](" ++ imagePath note
                                    ++ ")")%string; ""])
                       ++ [content note; ""; "---"; ""])
                  ns)).
Proof.
  intros videoPath ns.
  split.
  { unfold ExportPage.generateMarkdown, ExportPage.generateMarkdown_lines.
    rewrite (forEach_ext _ (ExportPage.note_section ExportPage.base64)
               (ExportPage.note_section ExportPage.path)); [reflexivity|].
    intros; apply note_section_mode. }
  intros mode. unfold ExportPage.generateMarkdown, Js.join_lines.
  rewrite generateMarkdown_lines_shape, forEach_toc_lines.
  rewrite (flat_map_ext _ _ (note_section_lines mode)).
  reflexivity.
Qed.

(** ** Sorting by seconds *)

Section Sorting.
Import Pipeline.

Context {A : Type} (key : A -> Q).

Lemma insert_by_perm (x : A) (l : list A) : Permutation (insert_by key x l) (x :: l).
Proof.
  induction l as [|y r IH]; simpl.
  - apply Permutation_refl.
  - destruct (Qle_bool (key x) (key y)).
    + apply Permutation_refl.
    + eapply perm_trans; [apply perm_skip, IH | apply perm_swap].
Qed.

Lemma sort_by_perm (l : list A) : Permutation (sort_by key l) l.
Proof.
  induction l as [|x r IH]; simpl.
  - apply Permutation_refl.
  - eapply perm_trans; [apply insert_by_perm | apply perm_skip, IH].
Qed.

Lemma insert_by_bound (a : Q) (x : A) (l : list A) :
  (a <= key x)%Q ->
  Forall (Qle a) (map key l) ->
  Forall (Qle a) (map key (insert_by key x l)).
Proof.
  intros Hx. induction l as [|y r IH]; simpl; intros Hl.
  - constructor; [exact Hx | constructor].
  - destruct (Qle_bool (key x) (key y)); simpl.
    + constructor; assumption.
    + inversion Hl; subst. constructor; [assumption | now apply IH].
Qed.

Lemma insert_by_sorted (x : A) (l : list A) :
  StronglySorted Qle (map key l) ->
  StronglySorted Qle (map key (insert_by key x l)).
Proof.
  induction l as [|y r IH]; simpl; intros Hs.
  - constructor; constructor.
  - inversion Hs as [|? ? Hr Hy]; subst.
    destruct (Qle_bool (key x) (key y)) eqn:E; simpl.
    + apply Qle_bool_iff in E.
      constructor; [exact Hs|].
      constructor; [exact E|].
      eapply Forall_impl; [|exact Hy].
      intros b Hb. eapply Qle_trans; eassumption.
    + assert (key y <= key x)%Q as Hyx.
      { apply Qlt_le_weak, Qnot_le_lt. intros H.
        apply Qle_bool_iff in H. congruence. }
      constructor; [now apply IH | now apply insert_by_bound].
Qed.

Lemma sort_by_sorted (l : list A) : StronglySorted Qle (map key (sort_by key l)).
Proof.
  induction l as [|x r IH]; simpl.
  - constructor.
  - now apply insert_by_sorted.
Qed.

Lemma sorted_filter (p : A -> bool) (l : list A) :
  StronglySorted Qle (map key l) ->
  StronglySorted Qle (map key (filter p l)).
Proof.
  induction l as [|x r IH]; simpl; intros Hs.
  - constructor.
  - inversion Hs as [|? ? Hr Hx]; subst.
    destruct (p x); simpl; [|now apply IH].
    constructor; [now apply IH|].
    rewrite Forall_forall in *. intros b Hb. apply Hx.
    rewrite in_map_iff in *. destruct Hb as (y & Hy & Hin).
    exists y. split; [exact Hy|]. now apply filter_In in Hin.
Qed.

End Sorting.

(** Removing notes keeps the remaining ids distinct. *)
Lemma filter_keeps_distinct_ids (keep : NoteNode -> bool) (ns : list NoteNode) :
  NoDup (map id ns) -> NoDup (map id (filter keep ns)).
Proof.
  induction ns as [|note rest IH]; simpl; intros Hdistinct.
  - constructor.
  - apply NoDup_cons_iff in Hdistinct. destruct Hdistinct as (Hfresh & Hrest).
    destruct (keep note); simpl; [|now apply IH].
    apply NoDup_cons; [|now apply IH].
    intros Hin. apply Hfresh.
    apply in_map_iff in Hin. destruct Hin as (other & Hid & Hin).
    apply in_map_iff. exists other.
    split; [exact Hid | exact (proj1 (proj1 (filter_In _ _ _) Hin))].
Qed.

(** ** Ids of assembled notes *)

Section NoteIds.
Import Js Pipeline.

Lemma string_of_uint_dash (u : Decimal.uint) :
  forall u' x y,
    (NilEmpty.string_of_uint u ++ String "-" x =
     NilEmpty.string_of_uint u' ++ String "-" y)%string ->
    u = u'.
Proof.
  induction u; destruct u'; simpl; intros x y H;
    try discriminate H; try reflexivity;
    injection H as H; f_equal; eauto.
Qed.

Lemma to_uint_nonnil (n : nat) : Nat.to_uint n <> Decimal.Nil.
Proof.
  intros H. pose proof (Unsigned.to_of (Nat.to_uint n)) as E.
  rewrite Unsigned.of_to in E. rewrite E in H.
  exact (DecimalFacts.unorm_nonnil _ H).
Qed.

Lemma toString_nat_nilempty (n : nat) :
  toString_nat n = NilEmpty.string_of_uint (Nat.to_uint n).
Proof.
  unfold toString_nat, NilZero.string_of_uint.
  pose proof (to_uint_nonnil n) as H.
  destruct (Nat.to_uint n); [contradiction|..]; reflexivity.
Qed.

(** The position can be read back from an id. *)
Lemma note_id_position (i j : nat) (s t : Q) : note_id i s = note_id j t -> i = j.
Proof.
  unfold note_id. rewrite !toString_nat_nilempty. intros H.
  apply Unsigned.to_uint_inj. eapply string_of_uint_dash. exact H.
Qed.

Lemma assemble_from_ids (pairs : list (Moment * FrameResult)) :
  forall k x,
    In x (map id (assemble_from k pairs)) ->
    exists j s, (k <= j)%nat /\ x = note_id j s.
Proof.
  induction pairs as [|mf rest IH]; simpl; intros k x Hin; [contradiction|].
  destruct Hin as [Hx | Hin].
  - exists k, (m_seconds (fst mf)). split; [lia | now symmetry].
  - destruct (IH _ _ Hin) as (j & s & Hj & Hx).
    exists j, s. split; [lia | exact Hx].
Qed.

Lemma assemble_from_nodup (pairs : list (Moment * FrameResult)) :
  forall k, NoDup (map id (assemble_from k pairs)).
Proof.
  induction pairs as [|mf rest IH]; simpl; intros k.
  - constructor.
  - constructor; [|apply IH].
    intros Hin. destruct (assemble_from_ids _ _ _ Hin) as (j & s & Hj & Hx).
    apply note_id_position in Hx. lia.
Qed.

Lemma assemble_invariant (pairs : list (Moment * FrameResult)) :
  NoteInvariant (assemble pairs).
Proof.
  split.
  - apply sort_by_sorted.
  - eapply Permutation_NoDup.
    + apply Permutation_map, Permutation_sym, sort_by_perm.
    + apply assemble_from_nodup.
Qed.

Lemma assemble_from_timestamp (pairs : list (Moment * FrameResult)) :
  forall k note,
    In note (assemble_from k pairs) ->
    timestamp note = format_timestamp (seconds note) /\ isEdited note = false.
Proof.
  induction pairs as [|mf rest IH]; simpl; intros k note Hin; [contradiction|].
  destruct Hin as [Hx | Hin]; [subst note; split; reflexivity | eauto].
Qed.

End NoteIds.

(** ** The note list under the editor *)

Section EditorInvariant.
Import ProjectState ProjectStore EditorPage.

Lemma updateNote_invariant (i : string) (updates : PartialNoteNode)
      (st : ProjectState.t) :
  p_id updates = None ->
  p_seconds updates = None ->
  NoteInvariant (notes st) ->
  NoteInvariant (notes (updateNote i updates st)).
Proof.
  intros Hid Hsec (Hs & Hn). rewrite updateNote_notes. split.
  - now rewrite map_touch_seconds.
  - now rewrite map_touch_ids.
Qed.

Lemma deleteNote_invariant (i : string) (st : ProjectState.t) :
  NoteInvariant (notes st) -> NoteInvariant (notes (deleteNote i st)).
Proof.
  intros (Hs & Hn). split; simpl.
  - now apply sorted_filter.
  - now apply filter_keeps_distinct_ids.
Qed.

Lemma deleteNote_removes (i : string) (st : ProjectState.t) (note : NoteNode) :
  In note (notes (deleteNote i st)) <-> In note (notes st) /\ id note <> i.
Proof.
  simpl. rewrite filter_In, negb_true_iff.
  destruct (String.eqb_spec (id note) i); intuition congruence.
Qed.

Lemma step_invariant (a : Action) (s : State) :
  NoteInvariant (notes (store s)) -> NoteInvariant (notes (store (step a s))).
Proof.
  destruct a; simpl; intros H; try exact H.
  - now apply updateNote_invariant.
  - now apply updateNote_invariant.
  - now apply deleteNote_invariant.
Qed.

Lemma run_invariant (actions : list Action) :
  forall s,
    NoteInvariant (notes (store s)) ->
    NoteInvariant (notes (store (run actions s))).
Proof.
  unfold run. induction actions as [|a rest IH]; simpl; intros s H.
  - exact H.
  - apply IH. now apply step_invariant.
Qed.

(** On an ascending list the lookup of [handleTimeUpdate] returns the last
    note that starts at or before the current time. *)
Lemma find_current_sorted (t : Q) (ns : list NoteNode) :
  StronglySorted Qle (map seconds ns) ->
  forall note,
    find_current t ns = Some note ->
    exists before after,
      ns = before ++ note :: after /\
      (seconds note <= t)%Q /\
      Forall (fun later => (t < seconds later)%Q) after.
Proof.
  induction ns as [|n rest IH]; simpl; intros Hs note Hf; [discriminate|].
  inversion Hs as [|? ? Hr Hn]; subst.
  destruct (covers t n (hd_error rest)) eqn:Hc.
  - inversion Hf; subst; clear Hf.
    exists [], rest. split; [reflexivity|].
    unfold covers in Hc. apply andb_true_iff in Hc. destruct Hc as (Hle & Hnext).
    split; [now apply Qle_bool_iff|].
    destruct rest as [|next rest']; [constructor|].
    simpl in Hnext. apply negb_true_iff in Hnext.
    assert (t < seconds next)%Q as Hlt.
    { apply Qnot_le_lt. intros H. apply Qle_bool_iff in H. congruence. }
    inversion Hr as [|? ? Hr' Hnext']; subst.
    constructor; [exact Hlt|].
    rewrite Forall_forall in *. intros later Hin.
    eapply Qlt_le_trans; [exact Hlt|].
    apply Hnext'. now apply in_map.
  - destruct (IH Hr note Hf) as (before & after & Hrest & Hle & Hafter).
    exists (n :: before), after. subst rest. repeat split; assumption.
Qed.

End EditorInvariant.

(** C2: the note list handed over by the pipeline is ascending by [seconds]
    with pairwise distinct ids, and the renderer keeps it so. The Note
    Assembler's output has the invariant; [setNotes] stores the list it is
    given, and [handleStart] stores the [data] of a successful response, so
    the stored list has it; every editor action (time update, play, pause,
    title edit, content edit, delete) keeps it, as does every sequence of
    them; the current-note lookup of a time update only reads the list, and
    on such a list it returns the last note starting at or before the
    current time. *)
Theorem note_invariant_delivered_and_kept :
  (forall pairs, NoteInvariant (Pipeline.assemble pairs)) /\
  (forall ns st, ProjectState.notes (ProjectStore.setNotes ns st) = ns) /\
  (forall backend w params resp,
      SetupPage.handleStart_guard w = SetupPage.Ready params ->
      ApiClient.analyzeVideo backend params = Js.Resolved resp ->
      AnalyzeResponse.success resp = true ->
      NoteInvariant (AnalyzeResponse.data resp) ->
      NoteInvariant
        (ProjectState.notes (App.project (SetupPage.handleStart backend w)))) /\
  (forall actions s,
      NoteInvariant (ProjectState.notes (EditorPage.store s)) ->
      NoteInvariant
        (ProjectState.notes (EditorPage.store (EditorPage.run actions s)))) /\
  (forall t s,
      EditorPage.store (EditorPage.step (EditorPage.TimeUpdate t) s) =
      EditorPage.store s) /\
  (forall t ns note,
      NoteInvariant ns ->
      EditorPage.find_current t ns = Some note ->
      exists before after,
        ns = before ++ note :: after /\
        (seconds note <= t)%Q /\
        Forall (fun later => (t < seconds later)%Q) after).
Proof.
  split; [apply assemble_invariant|].
  split; [reflexivity|].
  split.
  { intros backend w params resp Hg Hr Hs Hinv.
    destruct (handleStart_success backend w params Hg resp Hr Hs) as (Hn & _).
    now rewrite Hn. }
  split; [intros actions s; apply run_invariant|].
  split; [reflexivity|].
  intros t ns note (Hsorted & _). now apply find_current_sorted.
Qed.

(** The theorem at two assembled notes, stored and then edited. *)
Lemma note_invariant_delivered_and_kept_witness :
  NoteInvariant
    (Pipeline.assemble
       [(Sample.moment_at 65, Pipeline.Success "/out/frame_0.png" 120 0);
        (Sample.moment_at 12, Pipeline.Failure Pipeline.CodecError)]) /\
  NoteInvariant
    (ProjectState.notes
       (EditorPage.store
          (EditorPage.run
             [EditorPage.EditTitle "1-12" "intro"; EditorPage.TimeUpdate 30;
              EditorPage.Delete "0-65"]
             (EditorPage.mkState
                (ProjectStore.setNotes
                   (Pipeline.assemble
                      [(Sample.moment_at 65,
                        Pipeline.Success "/out/frame_0.png" 120 0);
                       (Sample.moment_at 12, Pipeline.Failure Pipeline.CodecError)])
                   ProjectStore.initialState)
                (EditorPage.mkLocal false 0 None))))).
Proof.
  destruct note_invariant_delivered_and_kept as (Hassemble & _ & _ & Hrun & _ & _).
  split; [apply Hassemble|].
  apply Hrun. apply Hassemble.
Defined.

(** ** A run cut short by the overall timeout *)

Section PartialResult.
Import Pipeline Orchestrator.

Lemma assemble_from_length (pairs : list (Moment * FrameResult)) :
  forall k, length (assemble_from k pairs) = length pairs.
Proof.
  induction pairs as [|mf rest IH]; intros k; simpl; [reflexivity|].
  now rewrite IH.
Qed.

Lemma assemble_length (pairs : list (Moment * FrameResult)) :
  length (assemble pairs) = length pairs.
Proof.
  unfold assemble.
  rewrite (Permutation_length (sort_by_perm seconds _)).
  apply assemble_from_length.
Qed.

Lemma assemble_note_of (k : nat) (w : MomentWork) :
  assembled_from w (assemble_note k (moment w, frame w)).
Proof. repeat split. Qed.

Lemma assemble_from_sound (ws : list MomentWork) :
  forall k note,
    In note (assemble_from k (map (fun w => (moment w, frame w)) ws)) ->
    exists w, In w ws /\ assembled_from w note.
Proof.
  induction ws as [|w rest IH]; simpl; intros k note Hin; [contradiction|].
  destruct Hin as [Hnote | Hin].
  - exists w. split; [now left|]. subst note. apply assemble_note_of.
  - destruct (IH _ _ Hin) as (w' & Hw' & Hnote). exists w'. split; [now right | exact Hnote].
Qed.

Lemma assemble_from_complete (ws : list MomentWork) :
  forall k w,
    In w ws ->
    exists note,
      In note (assemble_from k (map (fun w => (moment w, frame w)) ws)) /\
      assembled_from w note.
Proof.
  induction ws as [|w0 rest IH]; simpl; intros k w Hin; [contradiction|].
  destruct Hin as [Hw | Hin].
  - subst w0. eexists. split; [now left | apply assemble_note_of].
  - destruct (IH (S k) w Hin) as (note & Hnote & Hfrom).
    exists note. split; [now right | exact Hfrom].
Qed.

Lemma retained_in (timeout : N) (run : list MomentWork) (w : MomentWork) :
  In w (retained timeout run) <-> In w run /\ (completed_at w <= timeout)%N.
Proof.
  unfold retained. rewrite filter_In, N.leb_le. reflexivity.
Qed.

End PartialResult.

(** C3: a run that exceeds its overall timeout with at least one note's work
    complete returns a non-empty note array, not an error. The array has one
    note for each unit of work completed by the timeout and none for the
    cancelled ones, and it is ascending by seconds with distinct ids as
    every result is. When the backend's response carrying this array as a
    successful result reaches the client within the client's own timeout,
    [handleStart] stores it as the notes and opens the editor, with no error
    message. *)
Theorem timed_out_run_returns_assembled_notes :
  forall (timeout : N) (run : list Orchestrator.MomentWork),
    Orchestrator.timed_out timeout run = true ->
    Orchestrator.retained timeout run <> [] ->
    exists ns,
      Orchestrator.synthesize timeout run = inl ns /\
      ns <> [] /\
      length ns = length (Orchestrator.retained timeout run) /\
      NoteInvariant ns /\
      (forall note,
          In note ns ->
          exists w,
            In w run /\ (Orchestrator.completed_at w <= timeout)%N /\
            assembled_from w note) /\
      (forall w,
          In w run ->
          (Orchestrator.completed_at w <= timeout)%N ->
          exists note, In note ns /\ assembled_from w note) /\
      (forall backend app params t,
          SetupPage.handleStart_guard app = SetupPage.Ready params ->
          backend (ApiClient.analyzeVideo_body params) =
            ApiClient.Replies t (AnalyzeResponse.mk true ns None) ->
          (t <= ApiClient.timeout)%N ->
          let app' := SetupPage.handleStart backend app in
          ProjectState.notes (App.project app') = ns /\
          App.route app' = EditorRoute /\
          SetupLocal.errorMsg (App.setup app') = "").
Proof.
  intros timeout run _ Hsome.
  set (pairs := map (fun w => (Orchestrator.moment w, Orchestrator.frame w))
                    (Orchestrator.retained timeout run)).
  exists (Pipeline.assemble pairs).
  assert (length (Pipeline.assemble pairs) =
          length (Orchestrator.retained timeout run)) as Hlen.
  { rewrite assemble_length. apply length_map. }
  assert (Pipeline.assemble pairs <> []) as Hne.
  { intros Hnil. rewrite Hnil in Hlen. symmetry in Hlen.
    now apply length_zero_iff_nil in Hlen. }
  split.
  { unfold Orchestrator.synthesize. fold pairs.
    destruct (Pipeline.assemble pairs); [now contradiction Hne | reflexivity]. }
  split; [exact Hne|]. split; [exact Hlen|].
  split; [apply assemble_invariant|].
  split.
  { intros note Hin.
    apply (Permutation_in _ (sort_by_perm seconds _)) in Hin.
    destruct (assemble_from_sound _ _ _ Hin) as (w & Hw & Hfrom).
    apply retained_in in Hw. exists w. tauto. }
  split.
  { intros w Hw Hdone.
    destruct (assemble_from_complete (Orchestrator.retained timeout run) 0 w)
      as (note & Hnote & Hfrom); [now apply retained_in|].
    exists note. split; [|exact Hfrom].
    apply (Permutation_in _ (Permutation_sym (sort_by_perm seconds _))).
    exact Hnote. }
  intros backend app params t Hguard Hreply Htime app'. subst app'.
  assert (ApiClient.analyzeVideo backend params =
          Js.Resolved (AnalyzeResponse.mk true (Pipeline.assemble pairs) None)) as Hr.
  { unfold ApiClient.analyzeVideo, ApiClient.request. rewrite Hreply.
    apply N.ltb_ge in Htime. now rewrite Htime. }
  exact (handleStart_success backend app params Hguard _ Hr eq_refl).
Qed.

(** The theorem at a run of three moments, the third still outstanding
    when the timeout of 240000 ms is reached. *)
Lemma timed_out_run_returns_assembled_notes_witness :
  Orchestrator.timed_out 240000 Sample.run_cut_short = true /\
  Orchestrator.retained 240000 Sample.run_cut_short <> [] /\
  exists ns,
    Orchestrator.synthesize 240000 Sample.run_cut_short = inl ns /\
    length ns = 2%nat.
Proof.
  assert (Orchestrator.timed_out 240000 Sample.run_cut_short = true)
    as Hlate by reflexivity.
  assert (Orchestrator.retained 240000 Sample.run_cut_short <> [])
    as Hsome by discriminate.
  split; [exact Hlate|]. split; [exact Hsome|].
  destruct (timed_out_run_returns_assembled_notes 240000 Sample.run_cut_short
              Hlate Hsome) as (ns & Hs & _ & Hlen & _).
  exists ns. split; [exact Hs | exact Hlen].
Defined.

(** ** Timestamps *)

Section Timestamps.
Import Js.

Lemma floor_div (q : Q) (d : positive) :
  Qfloor (q / inject_Z (Zpos d)) = (Qfloor q / Zpos d)%Z.
Proof.
  destruct q as [n m]. unfold Qdiv, Qinv, Qmult, inject_Z, Qfloor. simpl.
  rewrite Z.mul_1_r, Pos2Z.inj_mul.
  rewrite Z.div_div; [reflexivity | discriminate | reflexivity].
Qed.

Lemma floor_sub (q : Q) (z : Z) : Qfloor (q - inject_Z z) = (Qfloor q - z)%Z.
Proof.
  destruct q as [n m]. unfold Qminus, Qplus, Qopp, inject_Z, Qfloor. simpl.
  rewrite Z.mul_1_r, Pos.mul_1_r.
  replace (n + - z * Z.pos m)%Z with (n + (- z) * Z.pos m)%Z by lia.
  rewrite Z.div_add by lia. lia.
Qed.

Lemma floor_nonneg (q : Q) : (0 <= q)%Q -> (0 <= Qfloor q)%Z.
Proof. intros H. apply Qfloor_resp_le in H. exact H. Qed.

Lemma div_nonneg (q : Q) (d : positive) :
  (0 <= q)%Q -> (0 <= q / inject_Z (Zpos d))%Q.
Proof.
  intros H. unfold Qdiv. apply Qmult_le_0_compat; [exact H|].
  unfold Qinv, inject_Z, Qle. simpl. lia.
Qed.

(** On a non-negative number [x % d] leaves the whole part reduced
    modulo [d]. *)
Lemma floor_rem (q : Q) (d : positive) :
  (0 <= q)%Q ->
  Qfloor (rem q (inject_Z (Zpos d))) = (Qfloor q mod Zpos d)%Z.
Proof.
  intros H. unfold rem, trunc.
  pose proof (div_nonneg q d H) as Hd. apply Qle_bool_iff in Hd. rewrite Hd.
  rewrite floor_div, <- inject_Z_mult, floor_sub.
  rewrite Z.mod_eq by lia. reflexivity.
Qed.

Lemma two_digits (z : Z) :
  (0 <= z < 60)%Z -> String.length (padStart2 (toString z)) = 2%nat.
Proof.
  intros H. destruct z as [|p|p]; [reflexivity| |lia].
  do 6 (destruct p as [p|p|]; try lia; try reflexivity).
Qed.

Lemma formatTime_whole_seconds (secs : Q) :
  (0 <= secs)%Q ->
  (secs <= inject_Z MAX_SAFE_INTEGER)%Q ->
  EditorPage.formatTime secs = Pipeline.format_timestamp secs.
Proof.
  intros H _. unfold EditorPage.formatTime, Pipeline.format_timestamp, floor.
  change 3600%Q with (inject_Z (Zpos 3600)).
  change 60%Q with (inject_Z (Zpos 60)).
  rewrite !floor_div, !floor_rem by exact H.
  pose proof (floor_nonneg _ H) as Hfloor.
  assert (0 <= Qfloor secs / 3600)%Z as Hh by (apply Z.div_pos; lia).
  destruct (Z.ltb_spec 0 (Qfloor secs / 3600));
    destruct (Z.eqb_spec (Qfloor secs / 3600) 0); try lia; reflexivity.
Qed.

Lemma format_timestamp_parts (secs : Q) :
  (0 <= secs)%Q ->
  exists h m s : Z,
    (0 <= h /\ 0 <= m < 60 /\ 0 <= s < 60)%Z /\
    Qfloor secs = (3600 * h + 60 * m + s)%Z /\
    Pipeline.format_timestamp secs =
      (if (h =? 0)%Z then toString m ++ ":" ++ padStart2 (toString s)
       else toString h ++ ":" ++ padStart2 (toString m) ++ ":"
              ++ padStart2 (toString s))%string /\
    String.length (padStart2 (toString m)) = 2%nat /\
    String.length (padStart2 (toString s)) = 2%nat.
Proof.
  intros H.
  pose proof (floor_nonneg _ H) as Hfloor.
  set (total := Qfloor secs) in *.
  exists (total / 3600)%Z, ((total mod 3600) / 60)%Z, (total mod 60)%Z.
  assert (0 <= total / 3600)%Z as Hh by (apply Z.div_pos; lia).
  pose proof (Z.mod_pos_bound total 3600 ltac:(lia)) as Hm.
  pose proof (Z.mod_pos_bound total 60 ltac:(lia)) as Hs.
  assert (0 <= (total mod 3600) / 60 < 60)%Z as Hm'.
  { split; [apply Z.div_pos; lia | apply Z.div_lt_upper_bound; lia]. }
  split; [lia|].
  split.
  { pose proof (Z.div_mod total 3600 ltac:(lia)) as E1.
    pose proof (Z.div_mod (total mod 3600) 60 ltac:(lia)) as E2.
    assert ((total mod 3600) mod 60 = total mod 60)%Z as E3.
    { symmetry. rewrite (Z.div_mod total 3600) at 1 by lia.
      replace (3600 * (total / 3600) + total mod 3600)%Z
        with (total mod 3600 + (60 * (total / 3600)) * 60)%Z by lia.
      apply Z.mod_add. lia. }
    lia. }
  split; [reflexivity|].
  split; now apply two_digits.
Qed.

End Timestamps.

(** C4: the timestamp of a note is its [seconds] floor-divided into hours,
    minutes and seconds. 0 gives "0:00", 65 gives "1:05", 3661 gives
    "1:01:01"; every assembled note carries the formatted value of its own
    [seconds]; for non-negative seconds the three parts are the unique
    split of the whole seconds with minutes and seconds below 60, printed
    with two digits each, the hours part left out when it is zero; and the
    editor's [formatTime] prints the same string, on the three examples and
    on every number of seconds from 0 to [Number.MAX_SAFE_INTEGER], the
    range on which its double arithmetic is the exact one. *)
Theorem timestamp_floor_division :
  Pipeline.format_timestamp 0 = "0:00" /\
  Pipeline.format_timestamp 65 = "1:05" /\
  Pipeline.format_timestamp 3661 = "1:01:01" /\
  (forall pairs note,
      In note (Pipeline.assemble pairs) ->
      timestamp note = Pipeline.format_timestamp (seconds note)) /\
  (forall secs,
      (0 <= secs)%Q ->
      exists h m s : Z,
        (0 <= h /\ 0 <= m < 60 /\ 0 <= s < 60)%Z /\
        Qfloor secs = (3600 * h + 60 * m + s)%Z /\
        Pipeline.format_timestamp secs =
          (if (h =? 0)%Z then
             Js.toString m ++ ":" ++ Js.padStart2 (Js.toString s)
           else
             Js.toString h ++ ":" ++ Js.padStart2 (Js.toString m) ++ ":"
               ++ Js.padStart2 (Js.toString s))%string /\
        String.length (Js.padStart2 (Js.toString m)) = 2%nat /\
        String.length (Js.padStart2 (Js.toString s)) = 2%nat) /\
  (forall secs,
      (0 <= secs)%Q ->
      (secs <= inject_Z Js.MAX_SAFE_INTEGER)%Q ->
      EditorPage.formatTime secs = Pipeline.format_timestamp secs) /\
  EditorPage.formatTime 0 = "0:00" /\
  EditorPage.formatTime 65 = "1:05" /\
  EditorPage.formatTime 3661 = "1:01:01".
Proof.
  split; [reflexivity|]. split; [reflexivity|]. split; [reflexivity|].
  split.
  { intros pairs note Hin.
    apply (Permutation_in _ (sort_by_perm seconds _)) in Hin.
    now apply assemble_from_timestamp in Hin. }
  split; [apply format_timestamp_parts|].
  split; [apply formatTime_whole_seconds|].
  repeat split; reflexivity.
Qed.

(** The theorem at 3661 seconds. *)
Lemma timestamp_floor_division_witness :
  (0 <= 3661)%Q /\
  (3661 <= inject_Z Js.MAX_SAFE_INTEGER)%Q /\
  EditorPage.formatTime 3661 = Pipeline.format_timestamp 3661.
Proof.
  destruct timestamp_floor_division as (_ & _ & _ & _ & _ & Hformat & _).
  split; [discriminate|]. split; [discriminate|].
  apply (Hformat 3661%Q); discriminate.
Defined.

(** ** Deduplication of moments *)

Section Dedup.
Import Pipeline.

Variable threshold : Q.

Lemma closer_than_false (a b : Moment) :
  closer_than threshold a b = false <->
  (threshold <= Qabs (m_seconds b - m_seconds a))%Q.
Proof.
  unfold closer_than. rewrite negb_false_iff. apply Qle_bool_iff.
Qed.

Lemma duplicate_of_app (e1 e2 : list Moment) (m : Moment) :
  duplicate_of threshold (e1 ++ e2) m =
  duplicate_of threshold e1 m || duplicate_of threshold e2 m.
Proof. unfold duplicate_of. apply existsb_app. Qed.

Lemma duplicate_of_earlier (e : list Moment) (a b : Moment) :
  In a e -> closer_than threshold a b = true -> duplicate_of threshold e b = true.
Proof.
  intros Hin Hc. unfold duplicate_of. apply existsb_exists.
  exists a. split; assumption.
Qed.

Lemma dedup_app (x : list Moment) :
  forall e y,
    dedup threshold e (x ++ y) =
    dedup threshold e x ++ dedup threshold (e ++ x) y.
Proof.
  induction x as [|m x IH]; intros e y; simpl.
  - now rewrite app_nil_r.
  - rewrite IH, <- app_assoc. simpl.
    destruct (duplicate_of threshold e m); reflexivity.
Qed.

Lemma dedup_incl (ms : list Moment) :
  forall e m, In m (dedup threshold e ms) -> In m ms.
Proof.
  induction ms as [|x rest IH]; simpl; intros e m Hin; [exact Hin|].
  destruct (duplicate_of threshold e x).
  - right. eapply IH, Hin.
  - destruct Hin as [Hx | Hin]; [now left | right; eapply IH, Hin].
Qed.

(** What is retained is not a duplicate of anything read before it, and
    no two retained moments are closer than the threshold. *)
Lemma dedup_separated (ms : list Moment) :
  forall e,
    Forall (fun b => duplicate_of threshold e b = false) (dedup threshold e ms) /\
    ForallOrdPairs (fun a b => closer_than threshold a b = false)
                   (dedup threshold e ms).
Proof.
  induction ms as [|m rest IH]; intros e; simpl.
  - split; constructor.
  - destruct (IH (e ++ [m])) as (Hdup & Hpairs).
    assert (Forall (fun b => duplicate_of threshold e b = false /\
                             closer_than threshold m b = false)
                   (dedup threshold (e ++ [m]) rest)) as Hboth.
    { eapply Forall_impl; [|exact Hdup]. intros b Hb. cbv beta in Hb.
      rewrite duplicate_of_app in Hb. apply orb_false_iff in Hb.
      destruct Hb as (He & Hm). split; [exact He|].
      unfold duplicate_of in Hm. simpl in Hm.
      now rewrite orb_false_r in Hm. }
    destruct (duplicate_of threshold e m) eqn:E.
    + split; [|exact Hpairs].
      eapply Forall_impl; [|exact Hboth]. now intros b (He & _).
    + split.
      * constructor; [exact E|].
        eapply Forall_impl; [|exact Hboth]. now intros b (He & _).
      * constructor; [|exact Hpairs].
        eapply Forall_impl; [|exact Hboth]. now intros b (_ & Hm).
Qed.

Lemma dedup_sorted (ms : list Moment) :
  forall e,
    StronglySorted Qle (map m_seconds ms) ->
    StronglySorted Qle (map m_seconds (dedup threshold e ms)).
Proof.
  induction ms as [|m rest IH]; simpl; intros e Hs.
  - constructor.
  - inversion Hs as [|? ? Hr Hm]; subst.
    destruct (duplicate_of threshold e m); simpl; [now apply IH|].
    constructor; [now apply IH|].
    rewrite Forall_forall in *. intros s Hin. apply Hm.
    rewrite in_map_iff in *. destruct Hin as (b & Hb & Hin).
    exists b. split; [exact Hb | eapply dedup_incl, Hin].
Qed.

Lemma dedup_drops_later (l1 l2 l3 : list Moment) (a b : Moment) :
  closer_than threshold a b = true ->
  dedup threshold [] (l1 ++ a :: l2 ++ b :: l3) =
  dedup threshold [] (l1 ++ a :: l2) ++ dedup threshold (l1 ++ a :: l2 ++ [b]) l3.
Proof.
  intros Hc.
  replace (l1 ++ a :: l2 ++ b :: l3) with ((l1 ++ a :: l2) ++ b :: l3)
    by (rewrite <- app_assoc; reflexivity).
  rewrite dedup_app. simpl.
  rewrite (duplicate_of_earlier (l1 ++ a :: l2) a b);
    [|apply in_elt|exact Hc].
  rewrite <- !app_assoc. reflexivity.
Qed.

Lemma dedup_keeps_first_of_run (l1 l2 : list Moment) (a : Moment) :
  duplicate_of threshold l1 a = false ->
  dedup threshold [] (l1 ++ a :: l2) =
  dedup threshold [] l1 ++ a :: dedup threshold (l1 ++ [a]) l2.
Proof.
  intros Hd. rewrite dedup_app. simpl. now rewrite Hd.
Qed.

End Dedup.

(** C5, as the deduplication rule has it: the merged list is ascending and no
    two retained moments are closer than the threshold; whenever two
    candidates are closer than the threshold the later one is dropped (it
    contributes nothing to the output); the earlier one is retained when no
    candidate before it is closer than the threshold to it, so the first
    candidate always is; and with a threshold of 5 the moments at 10.0 and
    10.8 collapse to the one at 10.0, whichever chunk reads it. *)
Theorem dedup_separates_moments :
  (forall threshold : Q,
      (forall chunks,
          StronglySorted Qle
            (map Pipeline.m_seconds (Pipeline.merge_moments threshold chunks)) /\
          ForallOrdPairs
            (fun a b =>
               (threshold <= Qabs (Pipeline.m_seconds b - Pipeline.m_seconds a))%Q)
            (Pipeline.merge_moments threshold chunks)) /\
      (forall l1 a l2 b l3,
          Pipeline.closer_than threshold a b = true ->
          Pipeline.dedup threshold [] (l1 ++ a :: l2 ++ b :: l3) =
          Pipeline.dedup threshold [] (l1 ++ a :: l2)
            ++ Pipeline.dedup threshold (l1 ++ a :: l2 ++ [b]) l3) /\
      (forall l1 a l2,
          Pipeline.duplicate_of threshold l1 a = false ->
          Pipeline.dedup threshold [] (l1 ++ a :: l2) =
          Pipeline.dedup threshold [] l1
            ++ a :: Pipeline.dedup threshold (l1 ++ [a]) l2) /\
      (forall a l,
          Pipeline.dedup threshold [] (a :: l) = a :: Pipeline.dedup threshold [a] l)) /\
  Pipeline.merge_moments 5 [[Sample.moment_at 10]; [Sample.moment_at (54 # 5)]] =
    [Sample.moment_at 10] /\
  Pipeline.merge_moments 5 [[Sample.moment_at (54 # 5)]; [Sample.moment_at 10]] =
    [Sample.moment_at 10].
Proof.
  split; [|split; reflexivity].
  intros threshold.
  split.
  { intros chunks. unfold Pipeline.merge_moments. split.
    - apply dedup_sorted, sort_by_sorted.
    - destruct (dedup_separated threshold
                  (Pipeline.sort_by Pipeline.m_seconds (concat chunks)) [])
        as (_ & Hpairs).
      induction Hpairs as [|a l Ha Hl IH]; constructor; [|exact IH].
      eapply Forall_impl; [|exact Ha].
      intros b Hb. now apply closer_than_false. }
  split; [intros l1 a l2 b l3 Hc; now apply dedup_drops_later|].
  split; [intros l1 a l2 Hd; now apply dedup_keeps_first_of_run|].
  reflexivity.
Qed.

(** The theorem at the two moments of the example, read as one candidate
    list. *)
Lemma dedup_separates_moments_witness :
  Pipeline.closer_than 5 (Sample.moment_at 10) (Sample.moment_at (54 # 5)) = true /\
  Pipeline.dedup 5 [] ([] ++ Sample.moment_at 10 :: [] ++ Sample.moment_at (54 # 5) :: []) =
  Pipeline.dedup 5 [] ([] ++ Sample.moment_at 10 :: [])
    ++ Pipeline.dedup 5 ([] ++ Sample.moment_at 10 :: [] ++ [Sample.moment_at (54 # 5)]) [].
Proof.
  destruct dedup_separates_moments as (H & _).
  destruct (H 5%Q) as (_ & Hlater & _).
  split; [reflexivity|].
  apply Hlater. reflexivity.
Defined.

(** C5 as stated fails on a run of close candidates: with a threshold of 5
    and candidates at 0, 4 and 8, the moments at 4 and 8 are closer than the
    threshold, yet the earlier of the two, at 4, is not kept: it is itself a
    duplicate of the moment at 0. *)
Lemma dedup_run_drops_the_middle :
  Pipeline.closer_than 5 (Sample.moment_at 4) (Sample.moment_at 8) = true /\
  Pipeline.merge_moments 5
    [[Sample.moment_at 0; Sample.moment_at 4; Sample.moment_at 8]] =
    [Sample.moment_at 0] /\
  ~ In (Sample.moment_at 4)
       (Pipeline.merge_moments 5
          [[Sample.moment_at 0; Sample.moment_at 4; Sample.moment_at 8]]).
Proof.
  split; [reflexivity|]. split; [reflexivity|].
  simpl. intros [H | []]. discriminate H.
Qed.

(** ** Project store: how [updateNote] and [deleteNote] compose *)

Section StoreAlgebra.
Import ProjectState ProjectStore.

Lemma spread_twice (note : NoteNode) (updates : PartialNoteNode) :
  spread (spread note updates) updates = spread note updates.
Proof.
  unfold spread; simpl.
  destruct (p_id updates), (p_timestamp updates), (p_seconds updates),
    (p_title updates), (p_content updates), (p_imagePath updates); reflexivity.
Qed.

Lemma setNotes_twice (a b : list NoteNode) (st : ProjectState.t) :
  setNotes a (setNotes b st) = setNotes a st.
Proof. reflexivity. Qed.

Lemma filter_other_ids (i : string) (ns : list NoteNode) :
  (forall note, In note ns -> id note <> i) ->
  filter (fun note => negb (String.eqb (id note) i)) ns = ns.
Proof.
  induction ns as [|n rest IH]; simpl; intros H; [reflexivity|].
  destruct (String.eqb_spec (id n) i) as [Heq|Hne]; simpl.
  - exfalso. apply (H n); [now left | exact Heq].
  - f_equal. apply IH. intros note Hin. apply H. now right.
Qed.

Lemma deleteNote_twice (i : string) (st : ProjectState.t) :
  deleteNote i (deleteNote i st) = deleteNote i st.
Proof.
  unfold deleteNote. rewrite setNotes_twice. f_equal. simpl.
  apply filter_other_ids. intros note Hin.
  apply filter_In in Hin. destruct Hin as (_ & Hne).
  apply negb_true_iff in Hne.
  destruct (String.eqb_spec (id note) i); [discriminate | assumption].
Qed.

Lemma deleteNote_ids (i : string) (st : ProjectState.t) :
  map id (notes (deleteNote i st)) =
  filter (fun x => negb (String.eqb x i)) (map id (notes st)).
Proof.
  simpl. induction (notes st) as [|n rest IH]; simpl; [reflexivity|].
  destruct (String.eqb (id n) i); simpl; now rewrite IH.
Qed.

End StoreAlgebra.

(** X1: [deleteNote(id)] removes exactly the notes with the id. Afterwards a
    note is in the list iff it was there before and has another id; the ids
    that remain are the old ids, in their order, without the deleted one; the
    other store fields are untouched; deleting again changes nothing, and
    deleting an id no note has leaves the store as it was. *)
Theorem deleteNote_removes_exactly :
  forall (i : string) (st : ProjectState.t),
    let st' := ProjectStore.deleteNote i st in
    (forall note,
        In note (ProjectState.notes st') <->
        In note (ProjectState.notes st) /\ id note <> i) /\
    map id (ProjectState.notes st') =
      filter (fun x => negb (String.eqb x i)) (map id (ProjectState.notes st)) /\
    ProjectStore.setNotes (ProjectState.notes st) st' = st /\
    ProjectStore.deleteNote i st' = st' /\
    ((forall note, In note (ProjectState.notes st) -> id note <> i) -> st' = st).
Proof.
  intros i st st'. subst st'.
  split; [intros note; apply deleteNote_removes|].
  split; [apply deleteNote_ids|].
  split; [destruct st; reflexivity|].
  split; [apply deleteNote_twice|].
  intros H. unfold ProjectStore.deleteNote.
  rewrite filter_other_ids by exact H. destruct st; reflexivity.
Qed.

(** The theorem at a list that has no note "zz". *)
Lemma deleteNote_removes_exactly_witness :
  ProjectStore.deleteNote "zz"
    (ProjectStore.setNotes [Sample.note_a1; Sample.note_b] ProjectStore.initialState) =
  ProjectStore.setNotes [Sample.note_a1; Sample.note_b] ProjectStore.initialState.
Proof.
  apply (deleteNote_removes_exactly "zz"
           (ProjectStore.setNotes [Sample.note_a1; Sample.note_b]
              ProjectStore.initialState)).
  simpl. intros note [H | [H | []]]; subst note; discriminate.
Defined.

(** X2: [updateNote] is idempotent: applying the same update to the same id
    a second time changes nothing, whatever fields the update carries (the id
    among them). *)
Theorem updateNote_idempotent :
  forall (i : string) (updates : PartialNoteNode) (st : ProjectState.t),
    ProjectStore.updateNote i updates (ProjectStore.updateNote i updates st) =
    ProjectStore.updateNote i updates st.
Proof.
  intros i updates st. unfold ProjectStore.updateNote.
  rewrite setNotes_twice. f_equal. simpl.
  rewrite map_map. apply map_ext. intros note.
  destruct (String.eqb (id note) i) eqn:E.
  - destruct (String.eqb (id (ProjectStore.spread note updates)) i);
      [apply spread_twice | reflexivity].
  - now rewrite E.
Qed.

(** X3: deleting wins over editing. An update addressed to an id that has
    just been deleted does nothing; and, when the update does not carry an id,
    deleting a note after editing it gives the same store as deleting it
    straight away. *)
Theorem deleteNote_absorbs_updateNote :
  forall (i : string) (updates : PartialNoteNode) (st : ProjectState.t),
    ProjectStore.updateNote i updates (ProjectStore.deleteNote i st) =
      ProjectStore.deleteNote i st /\
    (p_id updates = None ->
     ProjectStore.deleteNote i (ProjectStore.updateNote i updates st) =
       ProjectStore.deleteNote i st).
Proof.
  intros i updates st. split.
  - unfold ProjectStore.updateNote. rewrite map_touch_absent.
    + reflexivity.
    + intros note Hin. apply deleteNote_removes in Hin. tauto.
  - intros Hid. unfold ProjectStore.deleteNote, ProjectStore.updateNote.
    rewrite setNotes_twice. f_equal. simpl.
    induction (ProjectState.notes st) as [|n rest IH]; simpl; [reflexivity|].
    destruct (String.eqb (id n) i) eqn:E; simpl.
    + rewrite Hid, E. simpl. exact IH.
    + rewrite E. simpl. now rewrite IH.
Qed.

(** The theorem at a title edit of note "a" followed by its deletion. *)
Lemma deleteNote_absorbs_updateNote_witness :
  p_id (EditorPage.title_update "intro") = None /\
  ProjectStore.deleteNote "a"
    (ProjectStore.updateNote "a" (EditorPage.title_update "intro")
       (ProjectStore.setNotes [Sample.note_a1; Sample.note_b]
          ProjectStore.initialState)) =
  ProjectStore.deleteNote "a"
    (ProjectStore.setNotes [Sample.note_a1; Sample.note_b] ProjectStore.initialState).
Proof.
  split; [reflexivity|].
  apply (deleteNote_absorbs_updateNote "a" (EditorPage.title_update "intro")
           (ProjectStore.setNotes [Sample.note_a1; Sample.note_b]
              ProjectStore.initialState)).
  reflexivity.
Defined.

(** X4: edits of different notes commute. Two updates addressed to different
    ids, neither carrying an id, give the same store in either order. *)
Theorem updateNote_commutes :
  forall (i j : string) (u v : PartialNoteNode) (st : ProjectState.t),
    i <> j ->
    p_id u = None ->
    p_id v = None ->
    ProjectStore.updateNote i u (ProjectStore.updateNote j v st) =
    ProjectStore.updateNote j v (ProjectStore.updateNote i u st).
Proof.
  intros i j u v st Hij Hu Hv. unfold ProjectStore.updateNote.
  rewrite !setNotes_twice. f_equal. simpl.
  rewrite !map_map. apply map_ext. intros note.
  destruct (String.eqb (id note) i) eqn:Ei;
    destruct (String.eqb (id note) j) eqn:Ej;
    simpl; rewrite ?Hu, ?Hv, ?Ei, ?Ej; try reflexivity.
  apply String.eqb_eq in Ei, Ej. congruence.
Qed.

(** The theorem at a title edit of note "a" and a content edit of note "b". *)
Lemma updateNote_commutes_witness :
  "a" <> "b" /\
  ProjectStore.updateNote "a" (EditorPage.title_update "intro")
    (ProjectStore.updateNote "b" (EditorPage.content_update "body")
       (ProjectStore.setNotes [Sample.note_a1; Sample.note_b]
          ProjectStore.initialState)) =
  ProjectStore.updateNote "b" (EditorPage.content_update "body")
    (ProjectStore.updateNote "a" (EditorPage.title_update "intro")
       (ProjectStore.setNotes [Sample.note_a1; Sample.note_b]
          ProjectStore.initialState)).
Proof.
  split; [discriminate|].
  apply (updateNote_commutes "a" "b"); [discriminate | reflexivity | reflexivity].
Defined.

(** ** Editor page: which note a time update highlights *)

Section CurrentNote.
Import EditorPage.

Lemma not_le_bool (a b : Q) : Qle_bool a b = false <-> (b < a)%Q.
Proof.
  split; intros H.
  - apply Qnot_le_lt. intros Hle. apply Qle_bool_iff in Hle. congruence.
  - destruct (Qle_bool a b) eqn:E; [|reflexivity].
    apply Qle_bool_iff in E. exfalso. exact (Qlt_not_le _ _ H E).
Qed.

Lemma find_current_none (t : Q) (ns : list NoteNode) :
  find_current t ns = None <-> Forall (fun note => (t < seconds note)%Q) ns.
Proof.
  induction ns as [|n rest IH]; simpl.
  - split; [constructor | reflexivity].
  - destruct (covers t n (hd_error rest)) eqn:Hc.
    + split; [discriminate|]. intros Hall. exfalso.
      inversion Hall as [|? ? Hn Hrest]; subst.
      unfold covers in Hc. apply andb_true_iff in Hc. destruct Hc as (Hle & _).
      apply Qle_bool_iff in Hle. exact (Qlt_not_le _ _ Hn Hle).
    + rewrite IH. split; intros Hall.
      * constructor; [|exact Hall].
        unfold covers in Hc. apply andb_false_iff in Hc.
        destruct Hc as [Hc | Hc]; [now apply not_le_bool|].
        destruct rest as [|next rest']; simpl in Hc; [discriminate|].
        apply negb_false_iff, Qle_bool_iff in Hc.
        inversion Hall as [|? ? Hnext _]; subst.
        exfalso. exact (Qlt_not_le _ _ Hnext Hc).
      * now inversion Hall.
Qed.

Lemma find_current_some (t : Q) (ns : list NoteNode) (note : NoteNode) :
  find_current t ns = Some note -> In note ns /\ (seconds note <= t)%Q.
Proof.
  induction ns as [|n rest IH]; simpl; [discriminate|].
  destruct (covers t n (hd_error rest)) eqn:Hc; intros H.
  - inversion H; subst. split; [now left|].
    unfold covers in Hc. apply andb_true_iff in Hc.
    now apply Qle_bool_iff.
  - destruct (IH H) as (Hin & Hle). split; [now right | exact Hle].
Qed.

Lemma find_current_exact (ns : list NoteNode) :
  StronglySorted Qlt (map seconds ns) ->
  forall note, In note ns -> find_current (seconds note) ns = Some note.
Proof.
  induction ns as [|n rest IH]; simpl; intros Hs note Hin; [contradiction|].
  inversion Hs as [|? ? Hrest Hn]; subst.
  rewrite Forall_forall in Hn.
  destruct Hin as [Heq | Hin].
  - subst note. unfold covers.
    assert (Qle_bool (seconds n) (seconds n) = true) as Hrefl
        by (apply Qle_bool_iff, Qle_refl).
    rewrite Hrefl. simpl.
    destruct rest as [|next rest']; simpl; [reflexivity|].
    assert (Qle_bool (seconds next) (seconds n) = false) as Hnext.
    { apply not_le_bool, Hn. now left. }
    now rewrite Hnext.
  - assert (covers (seconds note) n (hd_error rest) = false) as Hc.
    { unfold covers. apply andb_false_iff. right.
      destruct rest as [|next rest']; [contradiction|]. simpl.
      apply negb_false_iff, Qle_bool_iff.
      destruct Hin as [Heq | Hin]; [subst; apply Qle_refl|].
      inversion Hrest as [|? ? _ Hnext]; subst.
      rewrite Forall_forall in Hnext.
      apply Qlt_le_weak, Hnext. now apply in_map. }
    rewrite Hc. now apply IH.
Qed.

End CurrentNote.

(** X5: a time update finds a current note exactly when some note starts at
    or before the current time, on any list, sorted or not. The note found is
    one of the list and starts at or before the time; when every note starts
    later, nothing is found and the highlighted note stays the one it was,
    while the displayed time still moves. *)
Theorem handleTimeUpdate_finds_started_note :
  forall (t : Q) (ns : list NoteNode) (l : EditorPage.Local),
    (EditorPage.find_current t ns = None <->
     Forall (fun note => (t < seconds note)%Q) ns) /\
    (forall note,
        EditorPage.find_current t ns = Some note ->
        In note ns /\ (seconds note <= t)%Q /\
        EditorPage.activeNoteId (EditorPage.handleTimeUpdate t ns l) =
          Some (id note)) /\
    (Forall (fun note => (t < seconds note)%Q) ns ->
     EditorPage.activeNoteId (EditorPage.handleTimeUpdate t ns l) =
       EditorPage.activeNoteId l) /\
    EditorPage.currentTime (EditorPage.handleTimeUpdate t ns l) = t /\
    EditorPage.isPlaying (EditorPage.handleTimeUpdate t ns l) = EditorPage.isPlaying l.
Proof.
  intros t ns l.
  split; [apply find_current_none|].
  split.
  { intros note H. destruct (find_current_some t ns note H) as (Hin & Hle).
    repeat split; try assumption.
    unfold EditorPage.handleTimeUpdate. now rewrite H. }
  split.
  { intros Hall. apply find_current_none in Hall.
    unfold EditorPage.handleTimeUpdate. now rewrite Hall. }
  unfold EditorPage.handleTimeUpdate.
  destruct (EditorPage.find_current t ns); split; reflexivity.
Qed.

(** The theorem at a time before the first note. *)
Lemma handleTimeUpdate_finds_started_note_witness :
  Forall (fun note => (0 < seconds note)%Q) [Sample.note_a1; Sample.note_b] /\
  EditorPage.activeNoteId
    (EditorPage.handleTimeUpdate 0 [Sample.note_a1; Sample.note_b]
       (EditorPage.mkLocal true 70 (Some "b"))) = Some "b".
Proof.
  assert (Forall (fun note => (0 < seconds note)%Q) [Sample.note_a1; Sample.note_b])
    as Hall by (repeat constructor).
  split; [exact Hall|].
  destruct (handleTimeUpdate_finds_started_note 0 [Sample.note_a1; Sample.note_b]
              (EditorPage.mkLocal true 70 (Some "b"))) as (_ & _ & Hkeep & _).
  exact (Hkeep Hall).
Defined.

(** X6: on a list whose seconds strictly increase, a time update at exactly
    the start of a note finds that note and highlights its id: seeking to a
    note's timestamp selects the note itself, not a neighbour. *)
Theorem handleTimeUpdate_at_note_start :
  forall (ns : list NoteNode) (note : NoteNode) (l : EditorPage.Local),
    StronglySorted Qlt (map seconds ns) ->
    In note ns ->
    EditorPage.find_current (seconds note) ns = Some note /\
    EditorPage.activeNoteId (EditorPage.handleTimeUpdate (seconds note) ns l) =
      Some (id note).
Proof.
  intros ns note l Hs Hin.
  pose proof (find_current_exact ns Hs note Hin) as H.
  split; [exact H|].
  unfold EditorPage.handleTimeUpdate. now rewrite H.
Qed.

(** The theorem at the first of two notes. *)
Lemma handleTimeUpdate_at_note_start_witness :
  StronglySorted Qlt (map seconds [Sample.note_a1; Sample.note_b]) /\
  In Sample.note_a1 [Sample.note_a1; Sample.note_b] /\
  EditorPage.activeNoteId
    (EditorPage.handleTimeUpdate (seconds Sample.note_a1)
       [Sample.note_a1; Sample.note_b] (EditorPage.mkLocal false 0 None)) =
  Some "a".
Proof.
  assert (StronglySorted Qlt (map seconds [Sample.note_a1; Sample.note_b])) as Hs
      by (repeat constructor).
  split; [exact Hs|]. split; [now left|].
  apply (handleTimeUpdate_at_note_start [Sample.note_a1; Sample.note_b]
           Sample.note_a1 (EditorPage.mkLocal false 0 None) Hs).
  now left.
Defined.

(** ** Export page: the document title *)

Section VideoName.
Import Js ExportPage.

Lemma append_cons_assoc (a : string) (c : ascii) (b : string) :
  ((a ++ String c "") ++ b)%string = (a ++ String c b)%string.
Proof. induction a as [|x a IH]; simpl; [reflexivity | now rewrite IH]. Qed.

Lemma split_path_cons (s cur : string) :
  exists seg rest, split_path s cur = seg :: rest.
Proof.
  revert cur. induction s as [|c r IH]; intros cur; simpl.
  - now exists cur, [].
  - destruct (is_path_separator c); [now exists cur, (split_path r "") | apply IH].
Qed.

Lemma last_skip (x : string) (l : list string) :
  l <> [] -> last (x :: l) "" = last l "".
Proof. destruct l; [contradiction | reflexivity]. Qed.

(** Only what follows the last separator counts. *)
Lemma split_path_after_separator (dir : string) (sep : ascii) (file : string) :
  is_path_separator sep = true ->
  forall cur,
    last (split_path (dir ++ String sep file) cur) "" =
    last (split_path file "") "".
Proof.
  intros Hsep. induction dir as [|c d IH]; intros cur; simpl.
  - rewrite Hsep. apply last_skip.
    destruct (split_path_cons file "") as (seg & rest & E). now rewrite E.
  - destruct (is_path_separator c); [|apply IH].
    rewrite last_skip; [apply IH|].
    destruct (split_path_cons (d ++ String sep file) "") as (seg & rest & E).
    now rewrite E.
Qed.

Lemma split_path_plain (s : string) :
  no_separator s = true -> forall cur, split_path s cur = [(cur ++ s)%string].
Proof.
  induction s as [|c r IH]; simpl; intros H cur.
  - f_equal. induction cur as [|x cur IHc]; simpl; [reflexivity | now f_equal].
  - apply andb_true_iff in H. destruct H as (Hc & Hr).
    apply negb_true_iff in Hc. rewrite Hc, (IH Hr). f_equal.
    apply append_cons_assoc.
Qed.

Lemma no_dot_append_dot (a b : string) : no_dot (a ++ String "." b) = false.
Proof.
  induction a as [|c a IH]; simpl; [reflexivity|].
  rewrite IH. apply andb_false_r.
Qed.

Lemma strip_extension_base (base ext : string) :
  ext <> "" -> no_dot ext = true ->
  strip_extension (base ++ String "." ext) = base.
Proof.
  intros Hne Hnd. induction base as [|c b IH]; simpl.
  - apply truthy_nonempty in Hne. now rewrite Hne, Hnd.
  - rewrite no_dot_append_dot, IH.
    now rewrite andb_false_r.
Qed.

Lemma no_separator_append (a b : string) :
  no_separator (a ++ b) = no_separator a && no_separator b.
Proof.
  induction a as [|c a IH]; simpl; [reflexivity|].
  now rewrite IH, andb_assoc.
Qed.

Lemma split_path_segments (s : string) :
  forall cur,
    no_separator cur = true ->
    Forall (fun seg => no_separator seg = true) (split_path s cur).
Proof.
  induction s as [|c r IH]; simpl; intros cur Hcur.
  - constructor; [exact Hcur | constructor].
  - destruct (is_path_separator c) eqn:E.
    + constructor; [exact Hcur | now apply IH].
    + apply IH. rewrite no_separator_append, Hcur. simpl. now rewrite E.
Qed.

Lemma last_in_or_default (l : list string) (d : string) :
  last l d = d \/ In (last l d) l.
Proof.
  induction l as [|x l IH]; simpl; [now left|].
  destruct l as [|y l']; [right; now left|].
  destruct IH as [IH | IH]; [left; exact IH | right; right; exact IH].
Qed.

Lemma strip_extension_no_separator (s : string) :
  no_separator s = true -> no_separator (strip_extension s) = true.
Proof.
  induction s as [|c r IH]; simpl; intros H; [reflexivity|].
  apply andb_true_iff in H. destruct H as (Hc & Hr).
  destruct (Ascii.eqb c "." && truthy r && no_dot r); simpl; [reflexivity|].
  now rewrite Hc, IH.
Qed.

End VideoName.

(** X7: the title of the export is the file name of the video without its
    directory and without its last extension: for a name with no separator
    in it and an extension with no dot and no separator, the path
    [dir/name.ext] (either separator, any directory, or none) gives [name];
    dots inside the name are kept. *)
Theorem videoName_is_base_name :
  forall (dir base ext : string),
    base <> "" ->
    no_separator base = true ->
    ext <> "" ->
    ExportPage.no_dot ext = true ->
    no_separator ext = true ->
    ExportPage.videoName (Some (base ++ String "." ext)%string) = base /\
    (forall sep,
        ExportPage.is_path_separator sep = true ->
        ExportPage.videoName (Some (dir ++ String sep (base ++ String "." ext))%string) =
        base).
Proof.
  intros dir base ext Hbase Hbsep Hext Hdot Hesep.
  assert (no_separator (base ++ String "." ext) = true) as Hfile.
  { rewrite no_separator_append, Hbsep. simpl. now rewrite Hesep. }
  assert (Js.or_else base "Video Notes" = base) as Hor.
  { unfold Js.or_else. apply truthy_nonempty in Hbase. now rewrite Hbase. }
  split.
  - unfold ExportPage.videoName.
    rewrite (split_path_plain _ Hfile). simpl.
    now rewrite strip_extension_base.
  - intros sep Hsep. unfold ExportPage.videoName.
    rewrite (split_path_after_separator dir sep _ Hsep).
    rewrite (split_path_plain _ Hfile). simpl.
    now rewrite strip_extension_base.
Qed.

(** The theorem at a Windows path with a dot in the file name. *)
Lemma videoName_is_base_name_witness :
  ExportPage.videoName (Some "C:\videos\lecture.part1.mp4") = "lecture.part1".
Proof.
  apply (videoName_is_base_name "C:\videos" "lecture.part1" "mp4");
    try discriminate; reflexivity.
Defined.

(** X8: the title is never empty and never contains a path separator,
    whatever the video path is: a missing path, a path ending in a separator
    and a file name that is only a dot and an extension all give the fixed
    title 'Video Notes'. *)
Theorem videoName_is_a_title :
  forall videoPath : option string,
    ExportPage.videoName videoPath <> "" /\
    no_separator (ExportPage.videoName videoPath) = true /\
    ExportPage.videoName None = "Video Notes" /\
    (forall dir sep,
        ExportPage.is_path_separator sep = true ->
        ExportPage.videoName (Some (dir ++ String sep "")%string) = "Video Notes") /\
    (forall ext,
        ext <> "" ->
        ExportPage.no_dot ext = true ->
        no_separator ext = true ->
        ExportPage.videoName (Some (String "." ext)) = "Video Notes").
Proof.
  intros videoPath.
  assert (forall s, no_separator s = true ->
                    Js.or_else s "Video Notes" <> "" /\
                    no_separator (Js.or_else s "Video Notes") = true) as Hor.
  { intros s Hs. unfold Js.or_else.
    destruct (Js.truthy s) eqn:E; split; try assumption; try reflexivity;
      [now apply truthy_nonempty | discriminate]. }
  assert (ExportPage.videoName videoPath <> "" /\
          no_separator (ExportPage.videoName videoPath) = true) as Hmain.
  { destruct videoPath as [p|]; simpl; [|split; [discriminate | reflexivity]].
    apply Hor, strip_extension_no_separator.
    pose proof (split_path_segments p "" eq_refl) as Hseg.
    destruct (last_in_or_default (ExportPage.split_path p "") "") as [E | Hin].
    - now rewrite E.
    - rewrite Forall_forall in Hseg. now apply Hseg. }
  destruct Hmain as (Hne & Hsep).
  split; [exact Hne|]. split; [exact Hsep|]. split; [reflexivity|].
  split.
  - intros dir sep Hs. unfold ExportPage.videoName.
    now rewrite (split_path_after_separator dir sep "" Hs).
  - intros ext Hext Hdot Hes. unfold ExportPage.videoName.
    assert (no_separator (String "." ext) = true) as Hfile
        by (simpl; now rewrite Hes).
    rewrite (split_path_plain _ Hfile). simpl.
    apply truthy_nonempty in Hext. now rewrite Hdot, Hext.
Qed.

(** The theorem at a path that ends in a separator and at a hidden file. *)
Lemma videoName_is_a_title_witness :
  ExportPage.videoName (Some "/home/user/videos/") = "Video Notes" /\
  ExportPage.videoName (Some ".mp4") = "Video Notes".
Proof.
  destruct (videoName_is_a_title None) as (_ & _ & _ & Hdir & Hext).
  split.
  - apply (Hdir "/home/user/videos" "/"%char). reflexivity.
  - apply (Hext "mp4"); [discriminate | reflexivity | reflexivity].
Defined.

(** ** Export page: the lines of the document *)

Section MarkdownLines.
Import Js ExportPage.

Lemma toc_entry_line (note : NoteNode) (k : nat) :
  toc_entry [] note k = [toc_line k note].
Proof. reflexivity. Qed.

Lemma forEach_toc_cons (note : NoteNode) (rest : list NoteNode) (k : nat) :
  forEach toc_entry (note :: rest) k [] =
  toc_line k note :: forEach toc_entry rest (S k) [].
Proof.
  simpl. rewrite forEach_toc_app, toc_entry_line. reflexivity.
Qed.

Lemma toc_length (ns : list NoteNode) :
  forall k, length (forEach toc_entry ns k []) = length ns.
Proof.
  induction ns as [|note rest IH]; intros k; [reflexivity|].
  rewrite forEach_toc_cons. simpl. now rewrite IH.
Qed.

Lemma toc_nth (ns : list NoteNode) :
  forall k0 k note,
    nth_error ns k = Some note ->
    nth_error (forEach toc_entry ns k0 []) k = Some (toc_line (k0 + k) note).
Proof.
  induction ns as [|n rest IH]; intros k0 k note Hk.
  - destruct k; discriminate Hk.
  - rewrite forEach_toc_cons. destruct k as [|k]; simpl in *.
    + inversion Hk; subst. now rewrite Nat.add_0_r.
    + rewrite (IH (S k0) k note Hk). f_equal. f_equal. lia.
Qed.

Lemma note_section_length (mode : ImageMode) (note : NoteNode) :
  length (note_section mode [] note 0) =
  (8 + if truthy (imagePath note) then 2 else 0)%nat.
Proof.
  unfold note_section. destruct (truthy (imagePath note)), mode; reflexivity.
Qed.

Lemma sections_length (mode : ImageMode) (ns : list NoteNode) :
  length (flat_map (fun note => note_section mode [] note 0) ns) =
  (8 * length ns + 2 * length (with_image ns))%nat.
Proof.
  induction ns as [|note rest IH]; [reflexivity|].
  cbn [flat_map]. rewrite length_app, IH, note_section_length.
  unfold with_image. simpl.
  destruct (truthy (imagePath note)); simpl; lia.
Qed.

Lemma same_fields_same_lines (a b : NoteNode) :
  exported_fields a = exported_fields b ->
  (forall k, toc_line k a = toc_line k b) /\
  (forall mode mode', note_section mode [] a 0 = note_section mode' [] b 0).
Proof.
  unfold exported_fields. intros H. inversion H as [[Ht Hs Hi Hc]].
  split.
  - intros k. unfold toc_line, anchor. now rewrite Ht, Hs.
  - intros mode mode'. unfold note_section, anchor.
    rewrite Ht, Hs, Hi, Hc. destruct mode, mode'; reflexivity.
Qed.

Lemma same_fields_same_document (ns : list NoteNode) :
  forall ns',
    map exported_fields ns = map exported_fields ns' ->
    (forall k, forEach toc_entry ns k [] = forEach toc_entry ns' k []) /\
    (forall mode mode',
        flat_map (fun note => note_section mode [] note 0) ns =
        flat_map (fun note => note_section mode' [] note 0) ns').
Proof.
  induction ns as [|a rest IH]; intros [|b rest'] H; try discriminate H.
  - split; reflexivity.
  - simpl in H.
    assert (exported_fields a = exported_fields b) as Hab by congruence.
    assert (map exported_fields rest = map exported_fields rest') as Hrest
        by congruence.
    destruct (IH rest' Hrest) as (Htoc & Hsec).
    destruct (same_fields_same_lines a b Hab) as (Hline & Hnote).
    split.
    + intros k. rewrite !forEach_toc_cons. now rewrite Hline, Htoc.
    + intros mode mode'. cbn [flat_map].
      now rewrite (Hnote mode mode'), (Hsec mode mode').
Qed.

Lemma newlines_app (a b : string) :
  newlines (a ++ b) = (newlines a + newlines b)%nat.
Proof.
  induction a as [|c a IH]; simpl; [reflexivity|]. rewrite IH. lia.
Qed.

Lemma newlines_remove_colon (t : string) :
  newlines (remove_char ":" t) = newlines t.
Proof.
  induction t as [|c t IH]; simpl; [reflexivity|].
  destruct (Ascii.eqb c ":") eqn:E.
  - apply Ascii.eqb_eq in E. subst c. simpl. exact IH.
  - simpl. now rewrite IH.
Qed.

Lemma newlines_digits (d : Decimal.uint) :
  newlines (NilEmpty.string_of_uint d) = 0%nat.
Proof. induction d; simpl; auto. Qed.

Lemma newlines_index (n : nat) : newlines (toString_nat n) = 0%nat.
Proof.
  unfold toString_nat, NilZero.string_of_uint.
  destruct (Nat.to_uint n); try reflexivity; apply newlines_digits.
Qed.

Lemma split_lines_nonempty (t : string) : split_lines t <> [].
Proof.
  destruct t as [|c t]; simpl; [discriminate|].
  destruct (Ascii.eqb c "010"); [discriminate|].
  destruct (split_lines t); discriminate.
Qed.

Lemma split_lines_length (t : string) :
  length (split_lines t) = S (newlines t).
Proof.
  induction t as [|c t IH]; simpl; [reflexivity|].
  destruct (Ascii.eqb c "010"); simpl; [now rewrite IH|].
  destruct (split_lines t); simpl in *; [discriminate IH | exact IH].
Qed.

(** A text without newline is its own single line. *)
Lemma split_lines_single (t : string) :
  newlines t = 0%nat -> split_lines t = [t].
Proof.
  induction t as [|c t IH]; simpl; intros H; [reflexivity|].
  destruct (Ascii.eqb c "010"); [discriminate H|].
  now rewrite (IH H).
Qed.

(** A newline between two texts separates their lines. *)
Lemma split_lines_sep (a b : string) :
  split_lines (a ++ String "010" b) = split_lines a ++ split_lines b.
Proof.
  induction a as [|c a IH]; simpl; [reflexivity|].
  destruct (Ascii.eqb c "010"); rewrite IH; [reflexivity|].
  destruct (split_lines a) eqn:E; [|reflexivity].
  now apply split_lines_nonempty in E.
Qed.

(** [join('\n')] followed by [split('\n')] gives the lines of the pieces. *)
Lemma split_lines_join (pieces : list string) :
  pieces <> [] -> split_lines (join_lines pieces) = flat_map split_lines pieces.
Proof.
  induction pieces as [|x rest IH]; intros H; [now contradiction H|].
  destruct rest as [|y rest].
  - simpl. now rewrite app_nil_r.
  - change (join_lines (x :: y :: rest))
      with (x ++ String "010" (join_lines (y :: rest)))%string.
    rewrite split_lines_sep, IH by discriminate. reflexivity.
Qed.

Lemma split_lines_one_line_pieces (pieces : list string) :
  Forall (fun piece => newlines piece = 0%nat) pieces ->
  flat_map split_lines pieces = pieces.
Proof.
  induction 1 as [|x rest Hx _ IH]; simpl; [reflexivity|].
  now rewrite (split_lines_single x Hx), IH.
Qed.

Lemma toc_line_one_line (k : nat) (note : NoteNode) :
  one_line_fields note -> newlines (toc_line k note) = 0%nat.
Proof.
  intros (Ht & Hs & _). unfold toc_line, anchor.
  rewrite !newlines_app, newlines_index, newlines_remove_colon, Ht, Hs.
  reflexivity.
Qed.

Lemma toc_one_line (ns : list NoteNode) :
  Forall one_line_fields ns ->
  forall k, Forall (fun piece => newlines piece = 0%nat) (forEach toc_entry ns k []).
Proof.
  induction 1 as [|note rest Hnote _ IH]; intros k; [constructor|].
  rewrite forEach_toc_cons. constructor; [|apply IH].
  now apply toc_line_one_line.
Qed.

(** The lines of the section of one note. *)
Lemma note_section_split (mode : ImageMode) (note : NoteNode) :
  one_line_fields note ->
  flat_map split_lines (note_section mode [] note 0) =
  [("## " ++ title note ++ " {#" ++ anchor note ++ "}")%string; "";
   ("**时间戳**: `" ++ timestamp note ++ "`")%string; ""]
    ++ (if truthy (imagePath note) then [image_line note; ""] else [])
    ++ split_lines (content note) ++ [""; "---"; ""].
Proof.
  intros (Ht & Hs & Hi).
  assert (newlines ("## " ++ title note ++ " {#" ++ anchor note ++ "}") = 0%nat)
    as Hhead.
  { unfold anchor. rewrite !newlines_app, newlines_remove_colon, Ht, Hs.
    reflexivity. }
  assert (newlines ("**时间戳**: `" ++ timestamp note ++ "`") = 0%nat) as Hstamp.
  { rewrite !newlines_app, Hs. reflexivity. }
  assert (newlines (image_line note) = 0%nat) as Himage.
  { unfold image_line. rewrite !newlines_app, Ht, Hi. reflexivity. }
  unfold note_section, push.
  destruct (truthy (imagePath note)); destruct mode;
    cbn [app flat_map];
    fold (image_line note);
    rewrite ?(split_lines_single _ Hhead), ?(split_lines_single _ Hstamp),
      ?(split_lines_single _ Himage);
    cbn [app split_lines]; rewrite ?app_nil_r; reflexivity.
Qed.

Lemma section_lines_length (mode : ImageMode) (ns : list NoteNode) :
  Forall one_line_fields ns ->
  (length (flat_map split_lines
             (flat_map (fun note => note_section mode [] note 0) ns))
   + length ns = list_sum (map note_line_count ns))%nat.
Proof.
  induction 1 as [|note rest Hnote _ IH]; [reflexivity|].
  cbn [flat_map map list_sum length].
  rewrite flat_map_app, length_app, (note_section_split mode note Hnote).
  unfold note_line_count at 1.
  rewrite !length_app. cbn [length list_sum fold_right].
  fold (list_sum (map note_line_count rest)).
  destruct (truthy (imagePath note)); cbn [length]; lia.
Qed.

(** The lines of the document: the heading block and the table of
    contents as pushed, then the lines of the sections. *)
Lemma document_lines (mode : ImageMode) (videoPath : option string)
      (ns : list NoteNode) :
  newlines (videoName videoPath) = 0%nat ->
  Forall one_line_fields ns ->
  split_lines (generateMarkdown mode videoPath ns) =
  [("# " ++ videoName videoPath)%string; ""; "> 由 Video2Note 自动生成"; ""; "---"; "";
   "## 目录"; ""]
    ++ forEach toc_entry ns 0 []
    ++ [""; "---"; ""]
    ++ flat_map split_lines (flat_map (fun note => note_section mode [] note 0) ns).
Proof.
  intros Hname Hfields. unfold generateMarkdown.
  rewrite generateMarkdown_lines_shape.
  rewrite split_lines_join by discriminate.
  rewrite !flat_map_app.
  rewrite (split_lines_one_line_pieces (forEach toc_entry ns 0 []))
    by now apply toc_one_line.
  assert (newlines ("# " ++ videoName videoPath) = 0%nat) as Htitle.
  { rewrite newlines_app, Hname. reflexivity. }
  cbn [flat_map]. rewrite (split_lines_single _ Htitle).
  reflexivity.
Qed.

End MarkdownLines.

(** X9: the layout of the exported document, in lines of the returned
    string. Let the video name and each note's title, timestamp and image
    path hold no newline (the content may). Then the first line is '# ' and
    the video name; lines 8, 9, ... (counted from 0) are the table of
    contents, one line per note in list order, the note at position [k]
    numbered [k + 1] and linked by its title to its anchor; and the document
    has 11 lines plus, for every note, 8 lines, the lines of its content, and
    2 more if it has an image. With no notes the document is the heading
    block and the empty table of contents alone. *)
Theorem generateMarkdown_layout :
  forall (mode : ExportPage.ImageMode) (videoPath : option string)
         (ns : list NoteNode),
    newlines (ExportPage.videoName videoPath) = 0%nat ->
    Forall one_line_fields ns ->
    length (split_lines (ExportPage.generateMarkdown mode videoPath ns)) =
      (11 + list_sum (map note_line_count ns))%nat /\
    (forall k note,
        nth_error ns k = Some note ->
        nth_error (split_lines (ExportPage.generateMarkdown mode videoPath ns))
                  (8 + k) =
        Some (toc_line k note)) /\
    nth_error (split_lines (ExportPage.generateMarkdown mode videoPath ns)) 0 =
      Some ("# " ++ ExportPage.videoName videoPath)%string /\
    split_lines (ExportPage.generateMarkdown mode videoPath []) =
      [("# " ++ ExportPage.videoName videoPath)%string; "";
       "> 由 Video2Note 自动生成"; ""; "---"; ""; "## 目录"; ""; ""; "---"; ""].
Proof.
  intros mode videoPath ns Hname Hfields.
  rewrite (document_lines mode videoPath ns Hname Hfields).
  split.
  { pose proof (section_lines_length mode ns Hfields) as Hsections.
    cbn [length app]. rewrite !length_app, toc_length. cbn [length]. lia. }
  split.
  { intros k note Hk.
    change (8 + k)%nat with (S (S (S (S (S (S (S (S k)))))))).
    cbn [app nth_error].
    rewrite nth_error_app1.
    - now rewrite (toc_nth ns 0 k note Hk).
    - rewrite toc_length. apply nth_error_Some. now rewrite Hk. }
  split; [reflexivity|].
  rewrite (document_lines mode videoPath [] Hname (Forall_nil _)).
  reflexivity.
Qed.

(** The theorem at one note whose content has three lines: the document
    has 22 lines. *)
Lemma generateMarkdown_layout_witness :
  newlines (ExportPage.videoName (Some "/videos/talk.mp4")) = 0%nat /\
  Forall one_line_fields
    [mkNoteNode "note_0" "0:01" 1 "first"
       (String "a" (String "010" (String "010" "b"))) "" false] /\
  length
    (split_lines
       (ExportPage.generateMarkdown ExportPage.path (Some "/videos/talk.mp4")
          [mkNoteNode "note_0" "0:01" 1 "first"
             (String "a" (String "010" (String "010" "b"))) "" false])) = 22%nat.
Proof.
  assert (newlines (ExportPage.videoName (Some "/videos/talk.mp4")) = 0%nat)
    as Hname by reflexivity.
  assert (Forall one_line_fields
            [mkNoteNode "note_0" "0:01" 1 "first"
               (String "a" (String "010" (String "010" "b"))) "" false])
    as Hfields by (repeat constructor).
  split; [exact Hname|]. split; [exact Hfields|].
  destruct (generateMarkdown_layout ExportPage.path (Some "/videos/talk.mp4")
              _ Hname Hfields) as (Hlen & _).
  exact Hlen.
Defined.

(** X10: the export reads the title, the timestamp, the image path and the
    content of each note, and nothing else: two note lists that agree on
    these four fields, note by note, give the same document in every image
    mode. The id, the seconds and the edited flag of a note never show in the
    export. *)
Theorem generateMarkdown_reads_four_fields :
  forall (mode mode' : ExportPage.ImageMode) (videoPath : option string)
         (ns ns' : list NoteNode),
    map exported_fields ns = map exported_fields ns' ->
    ExportPage.generateMarkdown mode videoPath ns =
    ExportPage.generateMarkdown mode' videoPath ns'.
Proof.
  intros mode mode' videoPath ns ns' H.
  unfold ExportPage.generateMarkdown. f_equal.
  rewrite !generateMarkdown_lines_shape.
  destruct (same_fields_same_document ns ns' H) as (Htoc & Hsec).
  now rewrite (Htoc 0%nat), (Hsec mode mode').
Qed.

(** The theorem at a note and the same note with another id, other seconds
    and the edited flag set. *)
Lemma generateMarkdown_reads_four_fields_witness :
  map exported_fields [Sample.note_b] =
    map exported_fields
        [mkNoteNode "renumbered" "1:05" 66 "third" "z" "/out/frame_2.png" true] /\
  ExportPage.generateMarkdown ExportPage.path None [Sample.note_b] =
  ExportPage.generateMarkdown ExportPage.base64 None
    [mkNoteNode "renumbered" "1:05" 66 "third" "z" "/out/frame_2.png" true].
Proof.
  split; [reflexivity|].
  apply generateMarkdown_reads_four_fields. reflexivity.
Defined.

(** ** Setup page: when a run starts and what it may change *)

Section StartGuards.
Import Js ApiClient SetupPage.

Variable backend : Body.t -> Backend AnalyzeResponse.t.
Variable w : App.t.

Lemma guard_cases :
  (handleStart_guard w = MissingFiles /\
   (opt_truthy (ProjectState.videoPath (App.project w)) = false \/
    opt_truthy (ProjectState.subtitleContent (App.project w)) = false)) \/
  (handleStart_guard w = MissingApiKey /\
   opt_truthy (ProjectState.videoPath (App.project w)) = true /\
   opt_truthy (ProjectState.subtitleContent (App.project w)) = true /\
   truthy (AppSettings.apiKey (App.settings w)) = false) \/
  (exists params,
      handleStart_guard w = Ready params /\
      opt_truthy (ProjectState.videoPath (App.project w)) = true /\
      opt_truthy (ProjectState.subtitleContent (App.project w)) = true /\
      truthy (AppSettings.apiKey (App.settings w)) = true).
Proof.
  unfold handleStart_guard.
  destruct (ProjectState.videoPath (App.project w)) as [v|]; simpl; [|now left; auto].
  destruct (ProjectState.subtitleContent (App.project w)) as [c|]; simpl;
    [|now left; auto].
  destruct (truthy v); simpl; [|now left; auto].
  destruct (truthy c); simpl; [|now left; auto].
  destruct (truthy (AppSettings.apiKey (App.settings w))).
  - right; right. eexists. repeat split; reflexivity.
  - right; left. repeat split; reflexivity.
Qed.

Lemma handleStart_settle_frame (r : Settled AnalyzeResponse.t JsError) (w0 : App.t) :
  App.settings (handleStart_settle r w0) = App.settings w0 /\
  ProjectState.videoPath (App.project (handleStart_settle r w0)) =
    ProjectState.videoPath (App.project w0) /\
  ProjectState.subtitlePath (App.project (handleStart_settle r w0)) =
    ProjectState.subtitlePath (App.project w0) /\
  ProjectState.subtitleContent (App.project (handleStart_settle r w0)) =
    ProjectState.subtitleContent (App.project w0) /\
  ProjectState.processingProgress (App.project (handleStart_settle r w0)) =
    ProjectState.processingProgress (App.project w0) /\
  ProjectState.error (App.project (handleStart_settle r w0)) =
    ProjectState.error (App.project w0).
Proof.
  unfold handleStart_settle.
  destruct r as [resp|e]; [destruct (AnalyzeResponse.success resp)|];
    cbv zeta; unfold App.with_project, App.with_setup;
    cbn [App.project App.settings];
    rewrite ?navigate_project, ?navigate_settings;
    repeat split; reflexivity.
Qed.

(** Without a response flagged successful the page stays mounted and keeps
    the cells [handleStart] does not write. *)
Lemma handleStart_settle_stays (r : Settled AnalyzeResponse.t JsError) (w0 : App.t) :
  (forall resp, r = Resolved resp -> AnalyzeResponse.success resp = false) ->
  SetupLocal.healthStatus (App.setup (handleStart_settle r w0)) =
    SetupLocal.healthStatus (App.setup w0) /\
  SetupLocal.isDragging (App.setup (handleStart_settle r w0)) =
    SetupLocal.isDragging (App.setup w0) /\
  SetupLocal.settingsOpen (App.setup (handleStart_settle r w0)) =
    SetupLocal.settingsOpen (App.setup w0).
Proof.
  intros Hr. unfold handleStart_settle.
  destruct r as [resp|e]; [rewrite (Hr resp eq_refl)|]; repeat split; reflexivity.
Qed.

(** With a response flagged successful the editor replaces the setup page,
    whose cells are dropped. *)
Lemma handleStart_settle_leaves (resp : AnalyzeResponse.t) (w0 : App.t) :
  AnalyzeResponse.success resp = true ->
  App.route w0 <> EditorRoute ->
  App.setup (handleStart_settle (Resolved resp) w0) = SetupLocal.initial.
Proof.
  intros Hs Hroute. unfold handleStart_settle. rewrite Hs. cbv zeta.
  unfold App.with_project, App.with_setup. cbn [App.setup App.route].
  rewrite navigate_setup. cbn [App.route].
  destruct (App.route w0); [reflexivity | now contradiction Hroute | reflexivity].
Qed.

End StartGuards.

(** X11: [handleStart] sends a request exactly when the video path, the
    subtitle content and the API key are all non-empty. With the video or the
    subtitle content missing it only shows '请先上传视频和字幕文件'; with both
    present and the key missing it only shows '请先在设置中配置 API Key' and
    opens the settings; in neither case is the backend asked or any other
    part of the state touched. *)
Theorem handleStart_guards :
  forall (backend : ApiClient.Body.t -> ApiClient.Backend AnalyzeResponse.t)
         (w : App.t),
    (SetupPage.handleStart_request w <> None <->
     Js.opt_truthy (ProjectState.videoPath (App.project w)) = true /\
     Js.opt_truthy (ProjectState.subtitleContent (App.project w)) = true /\
     Js.truthy (AppSettings.apiKey (App.settings w)) = true) /\
    (Js.opt_truthy (ProjectState.videoPath (App.project w)) = false \/
     Js.opt_truthy (ProjectState.subtitleContent (App.project w)) = false ->
     SetupPage.handleStart backend w =
     App.with_setup (SetupPage.setErrorMsg SetupPage.msg_missing_files) w) /\
    (Js.opt_truthy (ProjectState.videoPath (App.project w)) = true ->
     Js.opt_truthy (ProjectState.subtitleContent (App.project w)) = true ->
     Js.truthy (AppSettings.apiKey (App.settings w)) = false ->
     SetupPage.handleStart backend w =
     App.with_setup (SetupPage.setSettingsOpen true)
       (App.with_setup (SetupPage.setErrorMsg SetupPage.msg_missing_key) w)).
Proof.
  intros backend w.
  unfold SetupPage.handleStart_request, SetupPage.handleStart.
  destruct (guard_cases w)
    as [(Hg & Hmiss) | [(Hg & Hv & Hc & Hk) | (params & Hg & Hv & Hc & Hk)]];
    rewrite Hg.
  - split; [split; [intros H; now contradiction H | ]|].
    + intros (Hv & Hc & _). destruct Hmiss; congruence.
    + split; [reflexivity|]. intros Hv Hc. destruct Hmiss; congruence.
  - split; [split; [intros H; now contradiction H | ]|].
    + intros (_ & _ & Hk'). congruence.
    + split; [|reflexivity]. intros [H | H]; congruence.
  - split; [split; [auto | discriminate]|].
    split; [intros [H | H]; congruence | intros _ _ H; congruence].
Qed.

(** The theorem at a project with files and settings without a key. *)
Lemma handleStart_guards_witness :
  Js.truthy
    (AppSettings.apiKey
       (App.settings
          (App.mk Sample.project_ready SettingsStore.defaultSettings
             SetupLocal.initial SetupRoute))) = false /\
  SetupLocal.settingsOpen
    (App.setup
       (SetupPage.handleStart Sample.backend_one_note
          (App.mk Sample.project_ready SettingsStore.defaultSettings
             SetupLocal.initial SetupRoute))) = true.
Proof.
  split; [reflexivity|].
  destruct (handleStart_guards Sample.backend_one_note
              (App.mk Sample.project_ready SettingsStore.defaultSettings
                 SetupLocal.initial SetupRoute)) as (_ & _ & Hkey).
  rewrite Hkey; reflexivity.
Defined.

(** X12: what [handleStart] may change. Whatever the state and the backend,
    it leaves the settings, the chosen video and subtitle, the progress and
    the store's error field as they were. Then either the notes and the route
    are unchanged and the setup page keeps its health indicator and its drag
    flag; or the request was answered with a response flagged successful:
    the notes are replaced with its [data], the editor is opened, no error
    message is left, and the setup page, unmounted by the change of route,
    has lost its local state (it starts from its initial values when it is
    shown again). *)
Theorem handleStart_changes_notes_only_on_success :
  forall (backend : ApiClient.Body.t -> ApiClient.Backend AnalyzeResponse.t)
         (w : App.t),
    let w' := SetupPage.handleStart backend w in
    App.settings w' = App.settings w /\
    ProjectState.videoPath (App.project w') = ProjectState.videoPath (App.project w) /\
    ProjectState.subtitlePath (App.project w') =
      ProjectState.subtitlePath (App.project w) /\
    ProjectState.subtitleContent (App.project w') =
      ProjectState.subtitleContent (App.project w) /\
    ProjectState.processingProgress (App.project w') =
      ProjectState.processingProgress (App.project w) /\
    ProjectState.error (App.project w') = ProjectState.error (App.project w) /\
    ((ProjectState.notes (App.project w') = ProjectState.notes (App.project w) /\
      App.route w' = App.route w /\
      SetupLocal.healthStatus (App.setup w') = SetupLocal.healthStatus (App.setup w) /\
      SetupLocal.isDragging (App.setup w') = SetupLocal.isDragging (App.setup w)) \/
     exists params resp,
       SetupPage.handleStart_guard w = SetupPage.Ready params /\
       ApiClient.analyzeVideo backend params = Js.Resolved resp /\
       AnalyzeResponse.success resp = true /\
       ProjectState.notes (App.project w') = AnalyzeResponse.data resp /\
       App.route w' = EditorRoute /\
       SetupLocal.errorMsg (App.setup w') = "" /\
       (App.route w <> EditorRoute -> App.setup w' = SetupLocal.initial)).
Proof.
  intros backend w w'. subst w'.
  destruct (SetupPage.handleStart_guard w) as [| |params] eqn:Hg.
  - unfold SetupPage.handleStart. rewrite Hg. simpl.
    repeat (split; [reflexivity|]). left. repeat split; reflexivity.
  - unfold SetupPage.handleStart. rewrite Hg. simpl.
    repeat (split; [reflexivity|]). left. repeat split; reflexivity.
  - rewrite (handleStart_ready backend w params Hg).
    destruct (handleStart_settle_frame
                (ApiClient.analyzeVideo backend params)
                (SetupPage.handleStart_begin w))
      as (Hs & Hv & Hp & Hc & Hpr & He).
    repeat (split; [assumption|]).
    pose proof (handleStart_settle_stays
                  (ApiClient.analyzeVideo backend params)
                  (SetupPage.handleStart_begin w)) as Hstay.
    pose proof (fun resp => handleStart_settle_leaves resp
                  (SetupPage.handleStart_begin w)) as Hleave.
    rewrite <- (handleStart_ready backend w params Hg).
    destruct (ApiClient.analyzeVideo backend params) as [resp|e] eqn:Hr.
    + destruct (AnalyzeResponse.success resp) eqn:Hsucc.
      * destruct (handleStart_success backend w params Hg resp Hr Hsucc)
          as (Hn & Hroute & Hmsg).
        right. exists params, resp. split; [reflexivity|].
        repeat (split; [assumption|]).
        intros Hw. rewrite (handleStart_ready backend w params Hg), Hr.
        now apply Hleave.
      * destruct (handleStart_failure backend w params Hg resp Hr Hsucc)
          as (Hn & Hroute & _).
        left. split; [assumption|]. split; [assumption|].
        rewrite (handleStart_ready backend w params Hg), Hr.
        destruct Hstay as (Hh & Hd & _); [intros r Er; congruence|].
        split; assumption.
    + destruct (handleStart_rejected backend w params Hg e Hr) as (Hn & Hroute & _).
      left. split; [assumption|]. split; [assumption|].
      rewrite (handleStart_ready backend w params Hg), Hr.
      destruct Hstay as (Hh & Hd & _); [intros r Er; discriminate Er|].
      split; assumption.
Qed.

(** The theorem at a project with files and a key and a backend that
    answers with one note: the setup page is left. *)
Lemma handleStart_changes_notes_only_on_success_witness :
  App.route Sample.app_ready <> EditorRoute /\
  App.setup (SetupPage.handleStart Sample.backend_one_note Sample.app_ready) =
    SetupLocal.initial.
Proof.
  split; [discriminate|].
  destruct (handleStart_changes_notes_only_on_success
              Sample.backend_one_note Sample.app_ready)
    as (_ & _ & _ & _ & _ & _ & [_ | (params & resp & _ & _ & _ & _ & _ & _ & Hinit)]).
  - reflexivity.
  - apply Hinit. discriminate.
Defined.

(** ** Setup page: the file dialogs *)

Section FileDialogs.
Import Js MainProcess SetupFiles.

Variable fs : FileSystem.
Variable dialog : OpenDialogReturnValue.
Variable w : App.t.

Lemma handleSelectVideo_nothing :
  canceled dialog = true \/ filePaths dialog = [] -> handleSelectVideo dialog w = w.
Proof.
  intros H. unfold handleSelectVideo.
  now rewrite (proj2 (select_video_file_null dialog) H).
Qed.

Lemma handleSelectSubtitle_nothing :
  canceled dialog = true \/ filePaths dialog = [] ->
  handleSelectSubtitle fs dialog w = w.
Proof.
  intros H. unfold handleSelectSubtitle.
  now rewrite (proj2 (select_subtitle_file_null fs dialog) H).
Qed.

Lemma handleClick_nothing :
  canceled dialog = true \/ filePaths dialog = [] -> handleClick fs dialog w = w.
Proof.
  intros H. unfold handleClick.
  rewrite handleSelectVideo_nothing, handleSelectSubtitle_nothing by exact H.
  destruct (negb _); [reflexivity|]. now destruct (negb _).
Qed.

Lemma select_video_first (p : string) (rest : list string) :
  canceled dialog = false -> filePaths dialog = p :: rest ->
  select_video_file dialog = Some p.
Proof.
  intros Hc Hf. unfold select_video_file, first_path.
  now rewrite (something_chosen dialog p rest Hc Hf), Hf.
Qed.

Lemma select_subtitle_first (p : string) (rest : list string) :
  canceled dialog = false -> filePaths dialog = p :: rest ->
  select_subtitle_file fs dialog =
  match fs p with
  | Some c => Resolved (Some (p, c))
  | None => Rejected (ReadFailed p)
  end.
Proof.
  intros Hc Hf. unfold select_subtitle_file, first_path, readFileSync.
  rewrite (something_chosen dialog p rest Hc Hf), Hf. simpl.
  now destruct (fs p).
Qed.

End FileDialogs.

(** X13: the file dialogs as the setup page sees them. A dialog that is
    canceled or returns no path changes nothing, through [handleSelectVideo],
    [handleSelectSubtitle] and [handleClick] alike; so does a subtitle file
    that cannot be read. A subtitle that can be read stores the first path
    and the content of that same file together, and leaves the video path
    alone; a video with a non-empty first path stores that path and leaves
    the subtitle alone. Neither handler touches the notes. *)
Theorem file_dialogs_update_the_project :
  forall (fs : MainProcess.FileSystem) (dialog : MainProcess.OpenDialogReturnValue)
         (w : App.t),
    (MainProcess.canceled dialog = true \/ MainProcess.filePaths dialog = [] ->
     SetupFiles.handleSelectVideo dialog w = w /\
     SetupFiles.handleSelectSubtitle fs dialog w = w /\
     SetupFiles.handleClick fs dialog w = w) /\
    (forall p rest,
        MainProcess.canceled dialog = false ->
        MainProcess.filePaths dialog = p :: rest ->
        fs p = None ->
        SetupFiles.handleSelectSubtitle fs dialog w = w) /\
    (forall p rest c,
        MainProcess.canceled dialog = false ->
        MainProcess.filePaths dialog = p :: rest ->
        fs p = Some c ->
        let w' := SetupFiles.handleSelectSubtitle fs dialog w in
        ProjectState.subtitlePath (App.project w') = Some p /\
        ProjectState.subtitleContent (App.project w') = Some c /\
        ProjectState.videoPath (App.project w') =
          ProjectState.videoPath (App.project w) /\
        ProjectState.notes (App.project w') = ProjectState.notes (App.project w)) /\
    (forall p rest,
        MainProcess.canceled dialog = false ->
        MainProcess.filePaths dialog = p :: rest ->
        p <> "" ->
        let w' := SetupFiles.handleSelectVideo dialog w in
        ProjectState.videoPath (App.project w') = Some p /\
        ProjectState.subtitlePath (App.project w') =
          ProjectState.subtitlePath (App.project w) /\
        ProjectState.subtitleContent (App.project w') =
          ProjectState.subtitleContent (App.project w) /\
        ProjectState.notes (App.project w') = ProjectState.notes (App.project w)).
Proof.
  intros fs dialog w.
  split.
  { intros H. split; [now apply handleSelectVideo_nothing|].
    split; [now apply handleSelectSubtitle_nothing | now apply handleClick_nothing]. }
  split.
  { intros p rest Hc Hf Hfs. unfold SetupFiles.handleSelectSubtitle.
    now rewrite (select_subtitle_first fs dialog p rest Hc Hf), Hfs. }
  split.
  { intros p rest c Hc Hf Hfs w'. subst w'.
    unfold SetupFiles.handleSelectSubtitle.
    rewrite (select_subtitle_first fs dialog p rest Hc Hf), Hfs.
    repeat split; reflexivity. }
  intros p rest Hc Hf Hp w'. subst w'.
  unfold SetupFiles.handleSelectVideo.
  rewrite (select_video_first dialog p rest Hc Hf).
  apply truthy_nonempty in Hp. rewrite Hp.
  repeat split; reflexivity.
Qed.

(** The theorem at a canceled dialog and at a readable subtitle file. *)
Lemma file_dialogs_update_the_project_witness :
  SetupFiles.handleClick Sample.fs_one_file (MainProcess.mkDialog true [])
    Sample.app_ready = Sample.app_ready /\
  ProjectState.subtitleContent
    (App.project
       (SetupFiles.handleSelectSubtitle Sample.fs_one_file Sample.dialog_one_file
          Sample.app_ready)) = Some "hello".
Proof.
  destruct (file_dialogs_update_the_project Sample.fs_one_file
              (MainProcess.mkDialog true []) Sample.app_ready)
    as (Hcancel & _).
  destruct (file_dialogs_update_the_project Sample.fs_one_file
              Sample.dialog_one_file Sample.app_ready)
    as (_ & _ & Hread & _).
  split.
  - apply Hcancel. now left.
  - apply (Hread "/videos/talk.srt" [] "hello"); reflexivity.
Defined.

(** X14: the setup flow end to end. Starting with no files chosen and an API
    key configured, a click that picks a video, a click that picks a readable,
    non-empty subtitle file and a press on start send one request whose
    [video_path] is the picked video and whose [subtitle_text] is the content
    of the picked subtitle file; the start button is enabled at that point;
    clearing the video or the subtitle afterwards disables it and makes
    [handleStart] refuse again. *)
Theorem setup_flow_sends_the_chosen_files :
  forall (fs : MainProcess.FileSystem)
         (pickVideo pickSubtitle : MainProcess.OpenDialogReturnValue)
         (w : App.t) (video subtitle text : string) (more more' : list string),
    Js.opt_truthy (ProjectState.videoPath (App.project w)) = false ->
    Js.opt_truthy (ProjectState.subtitlePath (App.project w)) = false ->
    AppSettings.apiKey (App.settings w) <> "" ->
    MainProcess.canceled pickVideo = false ->
    MainProcess.filePaths pickVideo = video :: more ->
    video <> "" ->
    MainProcess.canceled pickSubtitle = false ->
    MainProcess.filePaths pickSubtitle = subtitle :: more' ->
    subtitle <> "" ->
    fs subtitle = Some text ->
    text <> "" ->
    let chosen :=
      SetupFiles.handleClick fs pickSubtitle (SetupFiles.handleClick fs pickVideo w) in
    (exists body,
        SetupPage.handleStart_request chosen = Some body /\
        ApiClient.Body.video_path body = video /\
        ApiClient.Body.subtitle_text body = text) /\
    SetupFiles.canStart chosen = true /\
    SetupFiles.canStart (SetupFiles.clearVideo chosen) = false /\
    SetupFiles.canStart (SetupFiles.clearSubtitle chosen) = false /\
    SetupPage.handleStart_request (SetupFiles.clearVideo chosen) = None /\
    SetupPage.handleStart_request (SetupFiles.clearSubtitle chosen) = None.
Proof.
  intros fs pickVideo pickSubtitle w video subtitle text more more'
         Hnov Hnos Hkey Hcv Hfv Hv Hcs Hfs Hs Hread Ht chosen.
  apply truthy_nonempty in Hkey, Hv, Hs, Ht.
  assert (SetupFiles.handleClick fs pickVideo w =
          App.with_project (ProjectStore.setVideoPath (Some video)) w) as E1.
  { unfold SetupFiles.handleClick. rewrite Hnov. simpl.
    unfold SetupFiles.handleSelectVideo.
    now rewrite (select_video_first pickVideo video more Hcv Hfv), Hv. }
  assert (chosen =
          App.with_project (ProjectStore.setSubtitleContent (Some text))
            (App.with_project (ProjectStore.setSubtitlePath (Some subtitle))
               (App.with_project (ProjectStore.setVideoPath (Some video)) w)))
    as E2.
  { subst chosen. rewrite E1. unfold SetupFiles.handleClick. simpl.
    rewrite Hv, Hnos. simpl. unfold SetupFiles.handleSelectSubtitle.
    now rewrite (select_subtitle_first fs pickSubtitle subtitle more' Hcs Hfs), Hread. }
  rewrite E2.
  split.
  { unfold SetupPage.handleStart_request, SetupPage.handleStart_guard. simpl.
    rewrite Hv, Ht, Hkey. simpl. eexists. repeat split; reflexivity. }
  unfold SetupFiles.canStart, SetupPage.handleStart_request,
    SetupPage.handleStart_guard. simpl.
  rewrite Hv, Hs. repeat split; reflexivity.
Qed.

(** The theorem at an empty project with a key, one video and one subtitle. *)
Lemma setup_flow_sends_the_chosen_files_witness :
  SetupFiles.canStart
    (SetupFiles.handleClick Sample.fs_one_file Sample.dialog_one_file
       (SetupFiles.handleClick Sample.fs_one_file
          (MainProcess.mkDialog false ["/videos/talk.mp4"])
          (App.mk ProjectStore.initialState Sample.settings_with_key
             SetupLocal.initial SetupRoute))) = true.
Proof.
  apply (setup_flow_sends_the_chosen_files Sample.fs_one_file
           (MainProcess.mkDialog false ["/videos/talk.mp4"]) Sample.dialog_one_file
           (App.mk ProjectStore.initialState Sample.settings_with_key
              SetupLocal.initial SetupRoute)
           "/videos/talk.mp4" "/videos/talk.srt" "hello" [] []);
    try reflexivity; discriminate.
Defined.

(** ** Setup page: dropped files *)

Section DroppedFiles.
Import Js SetupFiles.

Variable toLowerCase : string -> string.

Lemma split_dot_cons (s cur : string) :
  exists piece rest, split_dot s cur = piece :: rest.
Proof.
  revert cur. induction s as [|c r IH]; intros cur; simpl.
  - now exists cur, [].
  - destruct (Ascii.eqb c "."); [now exists cur, (split_dot r "") | apply IH].
Qed.

Lemma split_dot_plain (s : string) :
  ExportPage.no_dot s = true -> forall cur, split_dot s cur = [(cur ++ s)%string].
Proof.
  induction s as [|c r IH]; simpl; intros H cur.
  - f_equal. induction cur as [|x cur IHc]; simpl; [reflexivity | now f_equal].
  - apply andb_true_iff in H. destruct H as (Hc & Hr).
    apply negb_true_iff in Hc. rewrite Hc, (IH Hr). f_equal.
    apply append_cons_assoc.
Qed.

Lemma split_dot_after_dot (stem ext : string) :
  forall cur,
    last (split_dot (stem ++ String "." ext) cur) "" = last (split_dot ext "") "".
Proof.
  induction stem as [|c stem IH]; intros cur; simpl.
  - apply last_skip.
    destruct (split_dot_cons ext "") as (piece & rest & E). now rewrite E.
  - destruct (Ascii.eqb c "."); [|apply IH].
    rewrite last_skip; [apply IH|].
    destruct (split_dot_cons (stem ++ String "." ext) "") as (piece & rest & E).
    now rewrite E.
Qed.

Lemma extension_after_last_dot (stem ext : string) (p : option string) (t : string) :
  ExportPage.no_dot ext = true ->
  extension toLowerCase (mkFile (stem ++ String "." ext) p t) = toLowerCase ext.
Proof.
  intros H. unfold extension. simpl.
  now rewrite split_dot_after_dot, (split_dot_plain ext H).
Qed.

Lemma extension_without_dot (n : string) (p : option string) (t : string) :
  ExportPage.no_dot n = true ->
  extension toLowerCase (mkFile n p t) = toLowerCase n.
Proof.
  intros H. unfold extension. simpl. now rewrite (split_dot_plain n H).
Qed.

Lemma handleFiles_snoc (files : list File) (f : File) (st : ProjectState.t) :
  handleFiles toLowerCase (files ++ [f]) st =
  handleFile toLowerCase (handleFiles toLowerCase files st) f.
Proof. unfold handleFiles. now rewrite fold_left_app. Qed.

Lemma last_of_kind_snoc (k : Kind) (files : list File) (f : File) :
  last_of_kind toLowerCase k (files ++ [f]) =
  if of_kind toLowerCase k f then Some f else last_of_kind toLowerCase k files.
Proof. unfold last_of_kind. now rewrite rev_app_distr. Qed.

Lemma handleFiles_result (files : list File) (st : ProjectState.t) :
  ProjectState.videoPath (fst (handleFiles toLowerCase files st)) =
    match last_of_kind toLowerCase Video files with
    | Some f => Some (file_path f)
    | None => ProjectState.videoPath st
    end /\
  ProjectState.subtitlePath (fst (handleFiles toLowerCase files st)) =
    match last_of_kind toLowerCase Subtitle files with
    | Some f => Some (file_path f)
    | None => ProjectState.subtitlePath st
    end /\
  snd (handleFiles toLowerCase files st) =
    filter (of_kind toLowerCase Subtitle) files /\
  ProjectState.subtitleContent (fst (handleFiles toLowerCase files st)) =
    ProjectState.subtitleContent st /\
  ProjectState.notes (fst (handleFiles toLowerCase files st)) =
    ProjectState.notes st /\
  ProjectState.isProcessing (fst (handleFiles toLowerCase files st)) =
    ProjectState.isProcessing st /\
  ProjectState.processingProgress (fst (handleFiles toLowerCase files st)) =
    ProjectState.processingProgress st /\
  ProjectState.error (fst (handleFiles toLowerCase files st)) =
    ProjectState.error st.
Proof.
  induction files as [|f files IH] using rev_ind.
  - repeat split; reflexivity.
  - destruct IH as (Hv & Hs & Hr & Hc & Hn & Hp & Hpr & He).
    rewrite handleFiles_snoc, !last_of_kind_snoc, filter_app.
    unfold handleFile, of_kind. simpl.
    destruct (kind_of toLowerCase f); simpl;
      rewrite ?app_nil_r; repeat split; try assumption; now f_equal.
Qed.

Lemma complete_reads_last (order : list File) :
  forall (st : ProjectState.t) (d : File),
    order <> [] ->
    ProjectState.subtitleContent (complete_reads order st) =
      Some (text (last order d)) /\
    ProjectState.subtitlePath (complete_reads order st) =
      ProjectState.subtitlePath st /\
    ProjectState.videoPath (complete_reads order st) = ProjectState.videoPath st.
Proof.
  induction order as [|f rest IH]; intros st d Hne; [contradiction|].
  destruct rest as [|g rest'].
  - repeat split; reflexivity.
  - destruct (IH (onload f st) d ltac:(discriminate)) as (Hc & Hp & Hv).
    change (complete_reads (f :: g :: rest') st)
      with (complete_reads (g :: rest') (onload f st)).
    change (last (f :: g :: rest') d) with (last (g :: rest') d).
    repeat split; assumption.
Qed.

End DroppedFiles.

(** X15: dropping a batch of files. Every file is sorted by the lower-cased
    text after the last dot of its name (the whole name when it has no dot).
    After the drop the video path is that of the last video file of the batch
    and the subtitle path that of the last subtitle file, each left as it was
    when the batch has no file of the kind; files of other kinds are ignored;
    the subtitle files, and only they, are handed to a reader, in drop order;
    the content, the notes and the other fields are not touched by the drop
    itself. When the reads complete, in whatever order, the content is the text
    of the file whose read completes last, and the paths stay. *)
Theorem handleFiles_last_file_wins :
  forall (toLowerCase : string -> string) (files : list SetupFiles.File)
         (st : ProjectState.t),
    let dropped := SetupFiles.handleFiles toLowerCase files st in
    ProjectState.videoPath (fst dropped) =
      match last_of_kind toLowerCase SetupFiles.Video files with
      | Some f => Some (SetupFiles.file_path f)
      | None => ProjectState.videoPath st
      end /\
    ProjectState.subtitlePath (fst dropped) =
      match last_of_kind toLowerCase SetupFiles.Subtitle files with
      | Some f => Some (SetupFiles.file_path f)
      | None => ProjectState.subtitlePath st
      end /\
    snd dropped = filter (of_kind toLowerCase SetupFiles.Subtitle) files /\
    ProjectState.subtitleContent (fst dropped) = ProjectState.subtitleContent st /\
    ProjectState.notes (fst dropped) = ProjectState.notes st /\
    (Forall (fun f => SetupFiles.kind_of toLowerCase f = SetupFiles.Other) files ->
     dropped = (st, [])) /\
    (forall order d,
        Permutation order (snd dropped) ->
        order <> [] ->
        let loaded := complete_reads order (fst dropped) in
        ProjectState.subtitleContent loaded = Some (SetupFiles.text (last order d)) /\
        ProjectState.subtitlePath loaded = ProjectState.subtitlePath (fst dropped) /\
        ProjectState.videoPath loaded = ProjectState.videoPath (fst dropped)) /\
    (forall stem ext p t,
        ExportPage.no_dot ext = true ->
        SetupFiles.extension toLowerCase
          (SetupFiles.mkFile (stem ++ String "." ext) p t) = toLowerCase ext) /\
    (forall n p t,
        ExportPage.no_dot n = true ->
        SetupFiles.extension toLowerCase (SetupFiles.mkFile n p t) = toLowerCase n).
Proof.
  intros toLowerCase files st dropped. subst dropped.
  destruct (handleFiles_result toLowerCase files st)
    as (Hv & Hs & Hr & Hc & Hn & _).
  repeat (split; [assumption|]).
  split.
  - intros Hother. clear Hv Hs Hr Hc Hn.
    induction files as [|f files IH] using rev_ind; [reflexivity|].
    apply Forall_app in Hother. destruct Hother as (Hfiles & Hf).
    inversion Hf as [|? ? Hkind _]; subst.
    rewrite handleFiles_snoc, (IH Hfiles).
    unfold SetupFiles.handleFile. now rewrite Hkind.
  - split; [|split].
    + intros order d _ Hne loaded. subst loaded.
      now apply complete_reads_last.
    + intros stem ext p t H. now apply extension_after_last_dot.
    + intros n p t H. now apply extension_without_dot.
Qed.

(** The theorem at a drop of a video, a text file without extension, and
    a subtitle, with ASCII lower-casing. *)
Lemma handleFiles_last_file_wins_witness :
  ProjectState.subtitleContent
    (complete_reads
       [SetupFiles.mkFile "talk.SRT" (Some "/videos/talk.SRT") "hello"]
       (fst (SetupFiles.handleFiles ascii_lower
               [SetupFiles.mkFile "talk.MP4" (Some "/videos/talk.MP4") "";
                SetupFiles.mkFile "notes" None "";
                SetupFiles.mkFile "talk.SRT" (Some "/videos/talk.SRT") "hello"]
               ProjectStore.initialState))) = Some "hello".
Proof.
  destruct (handleFiles_last_file_wins ascii_lower
              [SetupFiles.mkFile "talk.MP4" (Some "/videos/talk.MP4") "";
               SetupFiles.mkFile "notes" None "";
               SetupFiles.mkFile "talk.SRT" (Some "/videos/talk.SRT") "hello"]
              ProjectStore.initialState) as (_ & _ & _ & _ & _ & _ & Hload & _).
  destruct (Hload [SetupFiles.mkFile "talk.SRT" (Some "/videos/talk.SRT") "hello"]
                  (SetupFiles.mkFile "" None "")) as (Hcontent & _).
  - apply Permutation_refl.
  - discriminate.
  - exact Hcontent.
Defined.

(** ** Editor page: an empty note list *)

Section EmptyList.
Import EditorMount.

Lemma notes_empty_iff (ns : list NoteNode) : (length ns =? 0)%nat = true <-> ns = [].
Proof. rewrite Nat.eqb_eq. apply length_zero_iff_nil. Qed.

Lemma effects_editor_nonempty (w : App.t) :
  App.route (effects w) = EditorRoute ->
  ProjectState.notes (App.project (effects w)) <> [].
Proof.
  unfold effects, redirect_if_empty.
  destruct (App.route w) eqn:Hr; try (rewrite Hr; discriminate).
  destruct (length (ProjectState.notes (App.project w)) =? 0)%nat eqn:E.
  - rewrite navigate_route. discriminate.
  - intros _ Hnil. apply notes_empty_iff in Hnil. congruence.
Qed.

Lemma filter_all_out (i : string) (ns : list NoteNode) :
  (forall note, In note ns -> id note = i) ->
  filter (fun note => negb (String.eqb (id note) i)) ns = [].
Proof.
  induction ns as [|n rest IH]; simpl; intros H; [reflexivity|].
  rewrite (H n (or_introl eq_refl)), String.eqb_refl. simpl.
  apply IH. intros note Hin. apply H. now right.
Qed.

End EmptyList.

(** X16: the editor is never shown with an empty note list. Once the page's
    effects have run, the editor route implies a non-empty list. So a run that
    the backend reports successful with no notes ends on the setup page again,
    with no error message shown; deleting the last notes in the editor leads
    back to the setup page; and deleting a note while another one remains
    stays in the editor. *)
Theorem editor_needs_notes :
  (forall w,
      App.route (EditorMount.effects w) = EditorRoute ->
      ProjectState.notes (App.project (EditorMount.effects w)) <> []) /\
  (forall backend w params resp,
      SetupPage.handleStart_guard w = SetupPage.Ready params ->
      ApiClient.analyzeVideo backend params = Js.Resolved resp ->
      AnalyzeResponse.success resp = true ->
      AnalyzeResponse.data resp = [] ->
      let w' := EditorMount.effects (SetupPage.handleStart backend w) in
      App.route w' = SetupRoute /\
      SetupLocal.errorMsg (App.setup w') = "" /\
      ProjectState.notes (App.project w') = []) /\
  (forall i w,
      App.route w = EditorRoute ->
      (forall note, In note (ProjectState.notes (App.project w)) -> id note = i) ->
      App.route (EditorMount.delete_note i w) = SetupRoute) /\
  (forall i w note,
      App.route w = EditorRoute ->
      In note (ProjectState.notes (App.project w)) ->
      id note <> i ->
      App.route (EditorMount.delete_note i w) = EditorRoute).
Proof.
  split; [apply effects_editor_nonempty|].
  split.
  { intros backend w params resp Hg Hr Hs Hd w'. subst w'.
    destruct (handleStart_success backend w params Hg resp Hr Hs)
      as (Hn & Hroute & Hmsg).
    unfold EditorMount.effects, EditorMount.redirect_if_empty.
    rewrite Hroute, Hn, Hd. cbn [length Nat.eqb].
    rewrite navigate_route, navigate_project, navigate_setup, Hroute.
    cbn [App.route_eqb].
    split; [reflexivity|]. split; [reflexivity|].
    now rewrite Hn. }
  split.
  { intros i w Hroute Hall.
    unfold EditorMount.delete_note, EditorMount.effects,
      EditorMount.redirect_if_empty.
    simpl. rewrite Hroute, (filter_all_out i _ Hall). cbn [length Nat.eqb].
    apply navigate_route. }
  intros i w note Hroute Hin Hne.
  unfold EditorMount.delete_note, EditorMount.effects,
    EditorMount.redirect_if_empty.
  simpl. rewrite Hroute.
  destruct (length _ =? 0)%nat eqn:E; [|exact Hroute].
  apply notes_empty_iff in E.
  assert (In note (filter (fun n => negb (String.eqb (id n) i))
                          (ProjectState.notes (App.project w)))) as Hkept.
  { apply filter_In. split; [exact Hin|].
    apply negb_true_iff. now apply String.eqb_neq. }
  rewrite E in Hkept. contradiction.
Qed.

(** The theorem at a backend that reports success with no notes. *)
Lemma editor_needs_notes_witness :
  App.route
    (EditorMount.effects
       (SetupPage.handleStart
          (fun _ => ApiClient.Replies 900 (AnalyzeResponse.mk true [] None))
          Sample.app_ready)) = SetupRoute.
Proof.
  destruct editor_needs_notes as (_ & Hempty & _).
  apply (Hempty (fun _ => ApiClient.Replies 900 (AnalyzeResponse.mk true [] None))
                Sample.app_ready Sample.params_ready
                (AnalyzeResponse.mk true [] None));
    reflexivity.
Defined.

(** X17: stopping the backend process. [stopPythonBackend] issues no command
    when no child is recorded, and otherwise exactly one: taskkill with the
    child's pid on win32, SIGTERM to the child elsewhere; whenever it returns,
    the variable is cleared, so that a second stop, or a stop after the
    child's 'close' event, issues nothing. On win32 a child without a pid
    makes it throw before the variable is cleared. Closing all windows quits
    the application except on darwin. *)
Theorem stopPythonBackend_kills_once :
  forall (platform : PythonBackend.Platform)
         (pythonProcess : option PythonBackend.ChildProcess),
    (forall after commands,
        PythonBackend.stopPythonBackend platform pythonProcess =
          Js.Resolved (after, commands) ->
        after = None /\
        (pythonProcess = None -> commands = []) /\
        (forall child,
            pythonProcess = Some child ->
            commands =
              [match platform, PythonBackend.pid child with
               | PythonBackend.win32, Some n => PythonBackend.Taskkill n
               | _, _ => PythonBackend.Sigterm (PythonBackend.handle child)
               end]) /\
        PythonBackend.stopPythonBackend platform after = Js.Resolved (None, [])) /\
    (PythonBackend.stopPythonBackend platform pythonProcess =
       Js.Rejected PythonBackend.PidUndefined <->
     platform = PythonBackend.win32 /\
     exists child,
       pythonProcess = Some child /\ PythonBackend.pid child = None) /\
    PythonBackend.stopPythonBackend platform (PythonBackend.on_close pythonProcess) =
      Js.Resolved (None, []) /\
    (PythonBackend.window_all_closed platform = [] <->
     platform = PythonBackend.darwin).
Proof.
  intros platform pythonProcess.
  split.
  { intros after commands H.
    destruct pythonProcess as [child|]; simpl in H.
    - destruct platform; [destruct (PythonBackend.pid child) eqn:Hp|..];
        inversion H; subst; clear H;
        (split; [reflexivity|]); (split; [discriminate|]);
        (split; [|reflexivity]);
        intros child' Hc; inversion Hc; subst; try rewrite Hp; reflexivity.
    - inversion H; subst.
      split; [reflexivity|]. split; [reflexivity|].
      split; [discriminate | reflexivity]. }
  split.
  { split.
    - destruct pythonProcess as [child|]; simpl; [|discriminate].
      destruct platform; try discriminate.
      destruct (PythonBackend.pid child) eqn:Hp; [discriminate|].
      intros _. split; [reflexivity|]. now exists child.
    - intros (Hplat & child & Hproc & Hp). subst. simpl. now rewrite Hp. }
  split; [reflexivity|].
  destruct platform; simpl; split; intros H; try reflexivity; discriminate H.
Qed.

(** The theorem at a running child on win32. *)
Lemma stopPythonBackend_kills_once_witness :
  PythonBackend.stopPythonBackend PythonBackend.win32
    (Some (PythonBackend.mkChild 1 (Some 4242%nat))) =
    Js.Resolved (None, [PythonBackend.Taskkill 4242%nat]) /\
  PythonBackend.stopPythonBackend PythonBackend.win32 None = Js.Resolved (None, []).
Proof.
  split; [reflexivity|].
  destruct (stopPythonBackend_kills_once PythonBackend.win32
              (Some (PythonBackend.mkChild 1 (Some 4242%nat)))) as (Hstop & _).
  destruct (Hstop None [PythonBackend.Taskkill 4242%nat] eq_refl) as (_ & _ & _ & Hagain).
  exact Hagain.
Defined.

(** ** Editor page: the clock *)

Section Clock.

Lemma toString_digits (z : Z) :
  (0 <= z)%Z ->
  Js.toString z = NilEmpty.string_of_uint (digits z) /\ Z.of_uint (digits z) = z.
Proof.
  intros H. destruct z as [|p|p]; [split; reflexivity| |lia].
  split.
  - unfold Js.toString. simpl. unfold NilZero.string_of_uint.
    pose proof (DecimalPos.Unsigned.to_uint_nonnil p) as Hn.
    destruct (Pos.to_uint p); [contradiction|..]; reflexivity.
  - unfold Z.of_uint. simpl. now rewrite DecimalPos.Unsigned.of_to.
Qed.

Lemma pad_digits_ok (z : Z) :
  (0 <= z < 60)%Z ->
  Js.padStart2 (Js.toString z) = NilEmpty.string_of_uint (pad_digits z) /\
  Z.of_uint (pad_digits z) = z.
Proof.
  intros H. destruct z as [|p|p]; [split; reflexivity| |lia].
  do 6 (destruct p as [p|p|]; try lia; try (split; reflexivity)).
Qed.

Lemma split_colon_digits (d : Decimal.uint) :
  forall rest cur,
    split_colon (NilEmpty.string_of_uint d ++ rest) cur =
    split_colon rest (cur ++ NilEmpty.string_of_uint d).
Proof.
  induction d; intros rest cur; simpl;
    try (rewrite IHd, append_cons_assoc; reflexivity).
  f_equal. induction cur as [|x cur IHc]; simpl; [reflexivity | now f_equal].
Qed.

Lemma append_empty (s : string) : (s ++ "")%string = s.
Proof. induction s; simpl; [reflexivity | now f_equal]. Qed.

Lemma split_colon_piece (d : Decimal.uint) (rest : string) :
  split_colon (NilEmpty.string_of_uint d ++ String ":" rest) "" =
  NilEmpty.string_of_uint d :: split_colon rest "".
Proof. rewrite split_colon_digits. reflexivity. Qed.

Lemma split_colon_last (d : Decimal.uint) :
  split_colon (NilEmpty.string_of_uint d) "" = [NilEmpty.string_of_uint d].
Proof.
  rewrite <- (append_empty (NilEmpty.string_of_uint d)) at 1.
  rewrite split_colon_digits. reflexivity.
Qed.

Lemma digits_value_of (d : Decimal.uint) :
  digits_value (NilEmpty.string_of_uint d) = Z.of_uint d.
Proof. unfold digits_value. now rewrite NilEmpty.usu. Qed.

Lemma clock_seconds_format (secs : Q) :
  (0 <= secs)%Q -> clock_seconds (Pipeline.format_timestamp secs) = Qfloor secs.
Proof.
  intros H.
  destruct (format_timestamp_parts secs H)
    as (h & m & s & (Hh & Hm & Hs) & Htotal & Hfmt & _).
  rewrite Hfmt, Htotal.
  destruct (pad_digits_ok s Hs) as (Eps & Vps).
  destruct (pad_digits_ok m Hm) as (Epm & Vpm).
  destruct (toString_digits m (proj1 Hm)) as (Em & Vm).
  destruct (toString_digits h Hh) as (Eh & Vh).
  unfold clock_seconds.
  destruct (Z.eqb_spec h 0) as [Hz|Hnz].
  - rewrite Em, Eps. simpl append.
    rewrite split_colon_piece, split_colon_last. cbn [fold_left].
    rewrite !digits_value_of, Vm, Vps. lia.
  - rewrite Eh, Epm, Eps. simpl append.
    rewrite split_colon_piece, split_colon_piece, split_colon_last.
    cbn [fold_left].
    rewrite !digits_value_of, Vh, Vpm, Vps. lia.
Qed.

End Clock.

(** X18: the editor's clock shows the whole seconds and nothing else. For
    times from 0 to [Number.MAX_SAFE_INTEGER] (the range on which the double
    arithmetic of [formatTime] is the exact one), reading the displayed
    string back (digits between colons, each colon a factor of 60) gives the
    whole seconds of the time; so two such times are displayed alike exactly
    when they have the same whole seconds: the fraction of a second never
    shows, and no two different seconds share a display. *)
Theorem formatTime_shows_whole_seconds :
  forall a b : Q,
    (0 <= a)%Q ->
    (a <= inject_Z Js.MAX_SAFE_INTEGER)%Q ->
    (0 <= b)%Q ->
    (b <= inject_Z Js.MAX_SAFE_INTEGER)%Q ->
    clock_seconds (EditorPage.formatTime a) = Qfloor a /\
    (EditorPage.formatTime a = EditorPage.formatTime b <-> Qfloor a = Qfloor b).
Proof.
  intros a b Ha Ha' Hb Hb'.
  rewrite !formatTime_whole_seconds by assumption.
  split; [now apply clock_seconds_format|].
  split; intros H.
  - rewrite <- (clock_seconds_format a Ha), <- (clock_seconds_format b Hb).
    now rewrite H.
  - unfold Pipeline.format_timestamp. now rewrite H.
Qed.

(** The theorem at 3661.5 and 3661 seconds. *)
Lemma formatTime_shows_whole_seconds_witness :
  EditorPage.formatTime (7323 # 2) = EditorPage.formatTime 3661 /\
  clock_seconds (EditorPage.formatTime (7323 # 2)) = 3661%Z.
Proof.
  destruct (formatTime_shows_whole_seconds (7323 # 2) 3661)
    as (Hread & Hsame); [discriminate | discriminate | discriminate | discriminate |].
  split; [now apply Hsame | exact Hread].
Defined.
